(** * A shallow embedding of the request-forwarding layer (proxy.go)

    The forwarding entry point [ProxyAPI], its three request encoders
    ([parseRawRequest], [parseFormRequest], [parseMultipartFormRequest]) and
    the response rendering at the end of [ProxyAPI] are embedded as functions
    over an explicit world: the header map of the outbound sink and the trace
    of calls made on the sink, on the collaborator client and on the scoped
    resources (request body, response body, upload file handles). *)

From Stdlib Require Import Strings.Ascii Strings.String Strings.Byte.
From stdpp Require Import gmap strings list fin_maps pretty.

Local Open Scope string_scope.
Local Open Scope list_scope.

(** ** Basic data *)

(** Byte sequences (bodies and buffers). *)
Abbreviation bytes := (list byte).

(** A Go [error] value; only its identity matters here. *)
Inductive error := Err (msg : string).

#[global] Instance error_eq_dec : EqDecision error.
Proof. solve_decision. Defined.

(** [map[string][]string], the shape of [http.Header] and [url.Values]. *)
Abbreviation Header := (gmap string (list string)).
Abbreviation Values := (gmap string (list string)).

(** ** ASCII helpers *)

Definition byte_between (lo hi : nat) (c : ascii) : bool :=
  Nat.leb lo (nat_of_ascii c) && Nat.leb (nat_of_ascii c) hi.

Definition is_lower (c : ascii) : bool := byte_between 97 122 c.
Definition is_upper (c : ascii) : bool := byte_between 65 90 c.
Definition is_digit (c : ascii) : bool := byte_between 48 57 c.
Definition is_alnum (c : ascii) : bool := is_lower c || is_upper c || is_digit c.

Definition ascii_in (c : ascii) (s : string) : bool :=
  existsb (Ascii.eqb c) (list_ascii_of_string s).

(** ** [textproto.CanonicalMIMEHeaderKey]

    [http.Header]'s [Add], [Set] and [Get] all go through this function of
    the Go library: a key made of header-field bytes only gets its first
    letter and every letter after a hyphen in upper case and the other
    letters in lower case; any other key is returned unchanged. *)

Definition validHeaderFieldByte (c : ascii) : bool :=
  is_alnum c || ascii_in c "!#$%&'*+-.^_`|~".

Definition toUpper (c : ascii) : ascii :=
  if is_lower c then ascii_of_nat (nat_of_ascii c - 32) else c.
Definition toLower (c : ascii) : ascii :=
  if is_upper c then ascii_of_nat (nat_of_ascii c + 32) else c.

Fixpoint canonicalMIMEHeaderKey (upper : bool) (s : string) : string :=
  match s with
  | EmptyString => EmptyString
  | String c s' =>
      let c' := if upper then toUpper c else toLower c in
      String c' (canonicalMIMEHeaderKey (Ascii.eqb c' "-") s')
  end.

Definition CanonicalMIMEHeaderKey (s : string) : string :=
  if forallb validHeaderFieldByte (list_ascii_of_string s)
  then canonicalMIMEHeaderKey true s
  else s.

(** ** [http.Header] operations *)

Definition Header_Get (h : Header) (key : string) : string :=
  match h !! CanonicalMIMEHeaderKey key with
  | Some (v :: _) => v
  | _ => EmptyString
  end.

Definition Header_Add (key value : string) (h : Header) : Header :=
  let k := CanonicalMIMEHeaderKey key in
  <[k := (default [] (h !! k) ++ [value])%list]> h.

Definition Header_Set (key value : string) (h : Header) : Header :=
  <[CanonicalMIMEHeaderKey key := [value]]> h.

(** [url.Values.Add]: no canonicalisation of the key. *)
Definition Values_Add (key value : string) (v : Values) : Values :=
  <[key := (default [] (v !! key) ++ [value])%list]> v.

(** ** [url.URL] and its [String] method

    [ProxyAPI] builds a fresh [url.URL] with only [Path], [RawQuery] and
    [Fragment] set, so scheme, opaque part, user, host, raw path, raw
    fragment and the force-query flag are all zero. *)

Record URL := { Path : string; RawQuery : string; Fragment : string }.

Inductive encoding := encodePath | encodeFragment.

Definition shouldEscape (c : ascii) (mode : encoding) : bool :=
  if is_alnum c then false
  else if ascii_in c "-_.~" then false
  else if ascii_in c "$&+,/:;=?@" then
    match mode with
    | encodePath => Ascii.eqb c "?"
    | encodeFragment => false
    end
  else
    match mode with
    | encodeFragment => negb (ascii_in c "!()*")
    | encodePath => true
    end.

Definition upperhex (n : nat) : ascii :=
  default "0"%char (list_ascii_of_string "0123456789ABCDEF" !! n).

Fixpoint escape (s : string) (mode : encoding) : string :=
  match s with
  | EmptyString => EmptyString
  | String c s' =>
      if shouldEscape c mode
      then String "%" (String (upperhex (nat_of_ascii c / 16))
                     (String (upperhex (nat_of_ascii c mod 16)) (escape s' mode)))
      else String c (escape s' mode)
  end.

Definition EscapedPath (u : URL) : string :=
  if decide (Path u = "*") then "*" else escape (Path u) encodePath.

Definition EscapedFragment (u : URL) : string :=
  escape (Fragment u) encodeFragment.

(** Does the first path segment (up to the first slash) hold a colon? *)
Fixpoint first_segment_has_colon (s : string) : bool :=
  match s with
  | EmptyString => false
  | String c s' =>
      if Ascii.eqb c "/" then false
      else if Ascii.eqb c ":" then true
      else first_segment_has_colon s'
  end.

Definition URL_String (u : URL) : string :=
  let path := EscapedPath u in
  (if first_segment_has_colon path then "./" else EmptyString)
  +:+ path
  +:+ (if decide (RawQuery u = EmptyString) then EmptyString else "?" +:+ RawQuery u)
  +:+ (if decide (Fragment u = EmptyString) then EmptyString
       else "#" +:+ EscapedFragment u).

(** [strconv.Itoa] on a buffer length. *)
Definition Itoa (n : nat) : string := pretty n.

(** ** What the Go libraries contribute

    JSON coding, gzip, form encoding and the multipart writer's boundary and
    write results come from the Go standard library; the order in which
    [range] visits a map is unspecified.  They are gathered in one interface,
    and every definition and theorem below is parametric in it. *)

Class GoRuntime := {
  JSON : Type;                                   (* interface{} holding a decoded value *)
  json_Decode : bytes → error + JSON;            (* json.NewDecoder(r).Decode(&m) *)
  json_Encode : JSON → error + bytes;            (* json.NewEncoder(buf).Encode(m) *)
  gzip_NewReader : bytes → error + bytes;        (* gzip.NewReader(r), as the inflated stream *)
  Values_Encode : Values → string;               (* url.Values.Encode *)
  multipart_boundary : string;                   (* boundary picked by multipart.NewWriter *)
  WriteField_err : string → string → option error;
  CreateFormFile_err : string → string → option error;
  URLInterceptorT : Type;
  RequestInterceptorT : Type;
  range : ∀ {A : Type}, gmap string A → list (string * A);
  range_perm : ∀ (A : Type) (m : gmap string A), range m ≡ₚ map_to_list m
}.

(** ** The multipart writer, as the parts it has been given *)

Inductive Part :=
| FieldPart (k v : string)
| FilePart (k filename : string) (content : bytes).

Record MultipartWriter := {
  mw_boundary : string;
  mw_parts : list Part;
  mw_closed : bool
}.

Definition mw_add (p : Part) (mw : MultipartWriter) : MultipartWriter :=
  {| mw_boundary := mw_boundary mw;
     mw_parts := mw_parts mw ++ [p];
     mw_closed := mw_closed mw |}.

Definition mw_Close (mw : MultipartWriter) : MultipartWriter :=
  {| mw_boundary := mw_boundary mw; mw_parts := mw_parts mw; mw_closed := true |}.

Definition FormDataContentType (mw : MultipartWriter) : string :=
  "multipart/form-data; boundary=" +:+ mw_boundary mw.

(** ** Readers handed to the collaborator client *)

Inductive Reader :=
| NilReader                              (* nil *)
| BodyReader (body : bytes)              (* req.Body, not read so far *)
| BufferReader (buf : bytes)             (* a *bytes.Buffer *)
| StringReader (s : string)              (* strings.NewReader(s) *)
| MultipartBuffer (mw : MultipartWriter) (* the buffer behind a multipart writer *).

(** ** Inbound request, options, client, response, sink *)

(** An opened upload: its content and what [io.Copy] from it returns. *)
Record multipart_File := { f_data : bytes; f_Copy_err : option error }.

Record FileHeader := { Filename : string; fh_Open : error + multipart_File }.

Record multipart_Form := {
  Value : gmap string (list string);
  File : gmap string (list FileHeader)
}.

(** [*http.Request], with the outcome of its parsing methods: [req_PostForm]
    and [req_Form] are the fields as [ParseForm] fills them, and
    [req_MultipartForm] the field as [ParseMultipartForm] fills it. *)
Record Request := {
  req_Method : string;
  req_URL : URL;
  req_Header : Header;
  req_Body : bytes;
  req_ParseForm : option error;
  req_Form : Values;
  req_PostForm : Values;
  req_ParseMultipartForm : Z → option error;
  req_MultipartForm : multipart_Form
}.

(** [*http.Response] as returned by the client; the body stream is given by
    the bytes it delivers. *)
Record Response := {
  res_StatusCode : Z;
  res_Header : Header;
  res_Body : bytes
}.

(** [http.ResponseWriter]: the header map it starts with and the error, if
    any, with which it answers a write of the given bytes ([Write] of a
    buffer, or [io.Copy] of a whole body).  The sink is known by the map
    behind [Header()] and by the sequence of calls made on it; what an
    implementation puts on the wire for them is its own matter. *)
Record ResponseWriter := {
  rw_Header : Header;
  rw_Write : bytes → option error
}.

Section Proxy.
Context `{rt : GoRuntime}.

(** Modelled from the spec: [proxy.Options] (package [proxy] of this
    repository), the per-call configuration with its optional interceptors. *)
Record Options := {
  RequestTimeout : Z;
  MaxUploadSize : Z;
  TransferResponseHeaders : list string;
  URLInterceptor : option URLInterceptorT;
  RequestInterceptor : option RequestInterceptorT;
  RequestJSONInterceptor : option (JSON → JSON);
  RequestFormInterceptor : option (Values → Values);
  RequestMultipartFormInterceptor : option (MultipartWriter → MultipartWriter);
  ResponseJSONInterceptor : option (JSON → JSON)
}.

(** Modelled from the spec: [request.Option] (package [request] of this
    repository), by the four constructors [ProxyAPI] uses. *)
Inductive request_Option :=
| WithRequestInterceptors (f : Header → Header)
| WithRequestTimeout (d : Z)
| AppendURLInterceptors (u : URLInterceptorT)
| AppendRequestInterceptors (r : RequestInterceptorT).

(** Modelled from the spec: the value built by [request.NewAPIRequest]. *)
Record APIRequest := {
  api_method : string;
  api_path : string;
  api_body : Reader;
  api_options : list request_Option
}.

(** Modelled from the spec: the collaborator client, by its timeout and the
    outcome of [DoAPIRequest]. *)
Record Client := {
  Timeout : Z;
  DoAPIRequest : APIRequest → error + Response
}.

(** ** The world and the calls made on it *)

Inductive Event :=
| EvReqBodyDecode                              (* json decoder reads req.Body *)
| EvReqBodyClose                               (* req.Body.Close() *)
| EvFileOpen (k filename : string)             (* v.Open() succeeded *)
| EvFileClose (k filename : string)            (* f.Close() *)
| EvDoAPIRequest (apiReq : APIRequest)         (* c.DoAPIRequest(apiReq) *)
| EvResBodyClose                               (* res.Body.Close() *)
| EvHeaderAdd (k v : string)                   (* writer.Header().Add(k, v) *)
| EvHeaderSet (k v : string)                   (* writer.Header().Set(k, v) *)
| EvWriteHeader (code : Z)                     (* writer.WriteHeader(code) *)
| EvWrite (buf : bytes)                        (* writer.Write(buf) *)
| EvCopy (body : bytes)                        (* io.Copy(writer, res.Body) *).

Record World := {
  sink_header : Header;      (* the map behind writer.Header() *)
  trace : list Event         (* calls so far, oldest first *)
}.

(** A computation that may fail with a Go error and acts on the world. *)
Definition M (A : Type) : Type := World → (error + A) * World.

Definition ret {A} (a : A) : M A := λ w, (inr a, w).
Definition fail {A} (e : error) : M A := λ w, (inl e, w).
Definition bind {A B} (m : M A) (k : A → M B) : M B :=
  λ w, match m w with
       | (inl e, w') => (inl e, w')
       | (inr a, w') => k a w'
       end.
Definition emit (e : Event) : M unit :=
  λ w, (inr tt, {| sink_header := sink_header w; trace := trace w ++ [e] |}).
Definition set_header (f : Header → Header) : M unit :=
  λ w, (inr tt, {| sink_header := f (sink_header w); trace := trace w |}).
Definition lift {A} (r : error + A) : M A :=
  match r with inl e => fail e | inr a => ret a end.
Definition check (r : option error) : M unit :=
  match r with Some e => fail e | None => ret tt end.
(** [defer cleanup]: the cleanup runs when the body returns, on every path. *)
Definition defer {A} (cleanup : M unit) (body : M A) : M A :=
  λ w, match body w with (r, w') => (r, snd (cleanup w')) end.

Notation "x <~ m ;; k" := (bind m (λ x, k))
  (at level 100, m at next level, k at level 200, right associativity).
Notation "m ;;; k" := (bind m (λ _, k))
  (at level 100, k at level 200, right associativity).

Fixpoint foldM {A B} (f : B → A → M B) (l : list A) (b : B) : M B :=
  match l with
  | [] => ret b
  | x :: l' => b' <~ f b x ;; foldM f l' b'
  end.

Definition sink_Add (k v : string) : M unit :=
  set_header (Header_Add k v) ;;; emit (EvHeaderAdd k v).
Definition sink_Set (k v : string) : M unit :=
  set_header (Header_Set k v) ;;; emit (EvHeaderSet k v).

(** ** Request encoders *)

Definition parseRawRequest (req : Request) (opt : Options) : M (Reader * string) :=
  match RequestJSONInterceptor opt with
  | Some interceptor =>
      defer (emit EvReqBodyClose)
        (emit EvReqBodyDecode ;;;
         m <~ lift (json_Decode (req_Body req)) ;;
         let m := interceptor m in
         buf <~ lift (json_Encode m) ;;
         ret (BufferReader buf, "application/json; charset=utf-8"))
  | None =>
      let contentType := Header_Get (req_Header req) "Content-Type" in
      let contentType :=
        if decide (contentType = EmptyString) then "application/octet-stream"
        else contentType in
      ret (BodyReader (req_Body req), contentType)
  end.

(** The two nested loops of [parseFormRequest]: [form.Add(k, v)] for every
    value of every key, the keys in the order [range] visits them. *)
Definition add_all (k : string) (vv : list string) (form : Values) : Values :=
  fold_left (λ form v, Values_Add k v form) vv form.

Definition rebuild_form (entries : list (string * list string)) : Values :=
  fold_left (λ form kvv, add_all kvv.1 kvv.2 form) entries ∅.

Definition parseFormRequest (req : Request) (opt : Options) : M (Reader * string) :=
  check (req_ParseForm req) ;;;
  let form := rebuild_form (range (req_PostForm req)) in
  let form :=
    match RequestFormInterceptor opt with
    | Some interceptor => interceptor form
    | None => form
    end in
  let contentType := Header_Get (req_Header req) "Content-Type" in
  let contentType :=
    if decide (contentType = EmptyString) then "application/x-www-form-urlencoded"
    else contentType in
  ret (StringReader (Values_Encode form), contentType).

Definition multipart_NewWriter : MultipartWriter :=
  {| mw_boundary := multipart_boundary; mw_parts := []; mw_closed := false |}.

Definition WriteField (k v : string) (mw : MultipartWriter) : M MultipartWriter :=
  check (WriteField_err k v) ;;;
  ret (mw_add (FieldPart k v) mw).

(** Body of the inner loop over the uploads of one key: open, create the
    part, copy, close.  The three early returns leave before the close. *)
Definition copy_file (k : string) (mw : MultipartWriter) (v : FileHeader)
  : M MultipartWriter :=
  f <~ lift (fh_Open v) ;;
  emit (EvFileOpen k (Filename v)) ;;;
  check (CreateFormFile_err k (Filename v)) ;;;
  check (f_Copy_err f) ;;;
  emit (EvFileClose k (Filename v)) ;;;
  ret (mw_add (FilePart k (Filename v) (f_data f)) mw).

Definition write_fields (entries : list (string * list string))
  (mw : MultipartWriter) : M MultipartWriter :=
  foldM (λ mw kvv, foldM (λ mw v, WriteField kvv.1 v mw) kvv.2 mw) entries mw.

Definition copy_files (entries : list (string * list FileHeader))
  (mw : MultipartWriter) : M MultipartWriter :=
  foldM (λ mw kvv, foldM (copy_file kvv.1) kvv.2 mw) entries mw.

(** [defer multiWriter.Close()] runs after the results are fixed, but the
    returned reader is the buffer the writer writes to, so the caller sees
    the buffer of the closed writer; the content type is read before. *)
Definition parseMultipartFormRequest (req : Request) (opt : Options)
  : M (Reader * string) :=
  check (req_ParseMultipartForm req (MaxUploadSize opt)) ;;;
  let multiWriter := multipart_NewWriter in
  mw <~ write_fields (range (Value (req_MultipartForm req))) multiWriter ;;
  mw <~ copy_files (range (File (req_MultipartForm req))) mw ;;
  let mw :=
    match RequestMultipartFormInterceptor opt with
    | Some interceptor => interceptor mw
    | None => mw
    end in
  ret (MultipartBuffer (mw_Close mw), FormDataContentType mw).

(** ** The forwarding call *)

Definition resolve_path (path : string) (httpReq : Request) : string :=
  if decide (path = EmptyString) then
    URL_String {| Path := Path (req_URL httpReq);
                  RawQuery := RawQuery (req_URL httpReq);
                  Fragment := Fragment (req_URL httpReq) |}
  else path.

Definition resolve_method (method : string) (httpReq : Request) : string :=
  if decide (method = EmptyString) then req_Method httpReq else method.

Definition base_options (c : Client) : Options :=
  {| RequestTimeout := Timeout c;
     MaxUploadSize := 0;
     TransferResponseHeaders := [];
     URLInterceptor := None;
     RequestInterceptor := None;
     RequestJSONInterceptor := None;
     RequestFormInterceptor := None;
     RequestMultipartFormInterceptor := None;
     ResponseJSONInterceptor := None |}.

Definition build_options (c : Client) (opts : list (Options → Options)) : Options :=
  fold_left (λ opt o, o opt) opts (base_options c).

(** Modelled from the spec: option-functions of package [proxy], each
    setting one field of the options. *)
Definition WithTransferResponseHeaders (hs : list string) (o : Options) : Options :=
  {| RequestTimeout := RequestTimeout o;
     MaxUploadSize := MaxUploadSize o;
     TransferResponseHeaders := hs;
     URLInterceptor := URLInterceptor o;
     RequestInterceptor := RequestInterceptor o;
     RequestJSONInterceptor := RequestJSONInterceptor o;
     RequestFormInterceptor := RequestFormInterceptor o;
     RequestMultipartFormInterceptor := RequestMultipartFormInterceptor o;
     ResponseJSONInterceptor := ResponseJSONInterceptor o |}.

Definition WithMaxUploadSize (n : Z) (o : Options) : Options :=
  {| RequestTimeout := RequestTimeout o;
     MaxUploadSize := n;
     TransferResponseHeaders := TransferResponseHeaders o;
     URLInterceptor := URLInterceptor o;
     RequestInterceptor := RequestInterceptor o;
     RequestJSONInterceptor := RequestJSONInterceptor o;
     RequestFormInterceptor := RequestFormInterceptor o;
     RequestMultipartFormInterceptor := RequestMultipartFormInterceptor o;
     ResponseJSONInterceptor := ResponseJSONInterceptor o |}.

Definition WithRequestJSONInterceptor (f : JSON → JSON) (o : Options) : Options :=
  {| RequestTimeout := RequestTimeout o;
     MaxUploadSize := MaxUploadSize o;
     TransferResponseHeaders := TransferResponseHeaders o;
     URLInterceptor := URLInterceptor o;
     RequestInterceptor := RequestInterceptor o;
     RequestJSONInterceptor := Some f;
     RequestFormInterceptor := RequestFormInterceptor o;
     RequestMultipartFormInterceptor := RequestMultipartFormInterceptor o;
     ResponseJSONInterceptor := ResponseJSONInterceptor o |}.

Definition WithResponseJSONInterceptor (f : JSON → JSON) (o : Options) : Options :=
  {| RequestTimeout := RequestTimeout o;
     MaxUploadSize := MaxUploadSize o;
     TransferResponseHeaders := TransferResponseHeaders o;
     URLInterceptor := URLInterceptor o;
     RequestInterceptor := RequestInterceptor o;
     RequestJSONInterceptor := RequestJSONInterceptor o;
     RequestFormInterceptor := RequestFormInterceptor o;
     RequestMultipartFormInterceptor := RequestMultipartFormInterceptor o;
     ResponseJSONInterceptor := Some f |}.

Definition reqParseFunc (requestType : string)
  : Request → Options → M (Reader * string) :=
  if decide (requestType = "RAW") then parseRawRequest
  else if decide (requestType = "FORM") then parseFormRequest
  else if decide (requestType = "MULTIPART_FORM") then parseMultipartFormRequest
  else λ _ _, ret (NilReader, EmptyString).

(** The request interceptor [ProxyAPI] installs on the outbound request. *)
Definition seed_headers (httpReq : Request) (reqContentType : string)
  (r : Header) : Header :=
  let r := fold_left
             (λ r kvv, fold_left (λ r v, Header_Add kvv.1 v r) kvv.2 r)
             (range (req_Header httpReq)) r in
  if decide (reqContentType = EmptyString) then r
  else Header_Set "Content-Type" reqContentType r.

Definition add_values (k : string) (vv : list string) : M unit :=
  foldM (λ _ v, sink_Add k v) vv tt.

(** The loop over the allow-list for one upstream header, with its [break]. *)
Fixpoint transfer_header (k : string) (vv : list string) (hs : list string)
  : M unit :=
  match hs with
  | [] => ret tt
  | h :: hs' =>
      if decide (k = h) then add_values k vv
      else transfer_header k vv hs'
  end.

Definition transfer_headers (res : Response) (opt : Options) : M unit :=
  foldM (λ _ kvv, transfer_header kvv.1 kvv.2 (TransferResponseHeaders opt))
        (range (res_Header res)) tt.

(** Lines 115-180: header transfer, status, then the JSON rewrite or the
    streamed copy. *)
Definition render (opt : Options) (res : Response) (writer : ResponseWriter)
  : M unit :=
  transfer_headers res opt ;;;
  emit (EvWriteHeader (res_StatusCode res)) ;;;
  let resContentEncoding := Header_Get (res_Header res) "Content-Encoding" in
  match ResponseJSONInterceptor opt with
  | Some interceptor =>
      reader <~ (if decide (resContentEncoding = "gzip")
                 then lift (gzip_NewReader (res_Body res))
                 else ret (res_Body res)) ;;
      m <~ lift (json_Decode reader) ;;
      let m := interceptor m in
      buf <~ lift (json_Encode m) ;;
      sink_Set "Content-Type" "application/json; charset=utf-8" ;;;
      sink_Set "Content-Length" (Itoa (length buf)) ;;;
      emit (EvWrite buf) ;;;
      check (rw_Write writer buf)
  | None =>
      sink_Set "Content-Type" (Header_Get (res_Header res) "Content-Type") ;;;
      (let resContentLength := Header_Get (res_Header res) "Content-Length" in
       if decide (resContentLength = EmptyString) then ret tt
       else sink_Set "Content-Length" resContentLength) ;;;
      (if decide (resContentEncoding = EmptyString) then ret tt
       else sink_Set "Content-Encoding" resContentEncoding) ;;;
      emit (EvCopy (res_Body res)) ;;;
      check (rw_Write writer (res_Body res))
  end.

(** Lines 75-106: the options and the outbound request built from the
    resolved method and path and from what the encoder returned. *)
Definition requestOptions (httpReq : Request) (opt : Options)
  (reqContentType : string) : list request_Option :=
  ([WithRequestInterceptors (seed_headers httpReq reqContentType);
    WithRequestTimeout (RequestTimeout opt)]
   ++ match URLInterceptor opt with
      | Some u => [AppendURLInterceptors u]
      | None => []
      end
   ++ match RequestInterceptor opt with
      | Some r => [AppendRequestInterceptors r]
      | None => []
      end)%list.

Definition NewAPIRequest (method path : string) (reqBody : Reader)
  (options : list request_Option) : APIRequest :=
  {| api_method := method; api_path := path;
     api_body := reqBody; api_options := options |}.

Definition outbound_request (method path : string) (httpReq : Request)
  (opt : Options) (parsed : Reader * string) : APIRequest :=
  NewAPIRequest (resolve_method method httpReq) (resolve_path path httpReq)
    parsed.1 (requestOptions httpReq opt parsed.2).

Definition ProxyAPI_M (c : Client) (method path : string) (httpReq : Request)
  (writer : ResponseWriter) (requestType : string)
  (opts : list (Options → Options)) : M unit :=
  let opt := build_options c opts in
  parsed <~ reqParseFunc requestType httpReq opt ;;
  let apiReq := outbound_request method path httpReq opt parsed in
  emit (EvDoAPIRequest apiReq) ;;;
  res <~ lift (DoAPIRequest c apiReq) ;;
  defer (emit EvResBodyClose) (render opt res writer).

Definition init_world (writer : ResponseWriter) : World :=
  {| sink_header := rw_Header writer; trace := [] |}.

(** The error returned (if any) and the world the call leaves behind. *)
Definition run {A} (m : M A) (w : World) : option error * World :=
  match m w with
  | (inl e, w') => (Some e, w')
  | (inr _, w') => (None, w')
  end.

Definition ProxyAPI (c : Client) (method path : string) (httpReq : Request)
  (writer : ResponseWriter) (requestType : string)
  (opts : list (Options → Options)) : option error * World :=
  run (ProxyAPI_M c method path httpReq writer requestType opts)
      (init_world writer).

End Proxy.

(** ** A small instance of the library interface

    Used to run the model on concrete inputs.  A JSON value is kept as its
    text: decoding fails on an empty stream (as the Go decoder does, with
    EOF) and encoding appends the newline the Go encoder writes; an inflated
    stream is the input behind the two gzip magic bytes; form encoding joins
    [k=v] pairs with ampersands; maps are visited in key-list order. *)

Definition sample_Decode (b : bytes) : error + bytes :=
  match b with
  | [] => inl (Err "EOF")
  | _ => inr b
  end.

Definition sample_Encode (v : bytes) : error + bytes := inr (v ++ [x0a])%list.

Definition sample_gunzip (b : bytes) : error + bytes :=
  match b with
  | x1f :: x8b :: rest => inr rest
  | _ => inl (Err "gzip: invalid header")
  end.

Definition sample_Values_Encode (v : Values) : string :=
  String.concat "&"
    (flat_map (λ kvv, map (λ x, kvv.1 +:+ "=" +:+ x) kvv.2) (map_to_list v)).

Definition sample_runtime : GoRuntime := {|
  JSON := bytes;
  json_Decode := sample_Decode;
  json_Encode := sample_Encode;
  gzip_NewReader := sample_gunzip;
  Values_Encode := sample_Values_Encode;
  multipart_boundary := "b0undary";
  WriteField_err := λ _ _, None;
  CreateFormFile_err := λ _ _, None;
  URLInterceptorT := unit;
  RequestInterceptorT := unit;
  range := λ A m, map_to_list m;
  range_perm := λ A m, Permutation_refl (map_to_list m)
|}.

(** ** Concrete requests, responses and clients *)

Section Samples.
#[local] Existing Instance sample_runtime.

Definition no_form : multipart_Form := {| Value := ∅; File := ∅ |}.

(** GET /v1/orders?status=open, no body. *)
Definition orders_request : Request :=
  {| req_Method := "GET";
     req_URL := {| Path := "/v1/orders"; RawQuery := "status=open";
                   Fragment := EmptyString |};
     req_Header := {[ "Accept" := ["*/*"] ]};
     req_Body := [];
     req_ParseForm := None;
     req_Form := {[ "status" := ["open"] ]};
     req_PostForm := ∅;
     req_ParseMultipartForm := λ _, None;
     req_MultipartForm := no_form |}.

(** A request whose path holds a space (sent as %20 on the wire). *)
Definition spaced_request : Request :=
  {| req_Method := "GET";
     req_URL := {| Path := "/a b"; RawQuery := EmptyString; Fragment := EmptyString |};
     req_Header := ∅;
     req_Body := [];
     req_ParseForm := None;
     req_Form := ∅;
     req_PostForm := ∅;
     req_ParseMultipartForm := λ _, None;
     req_MultipartForm := no_form |}.

(** POST /submit?q=1 with the form body a=1&a=2&b=x. *)
Definition form_request : Request :=
  {| req_Method := "POST";
     req_URL := {| Path := "/submit"; RawQuery := "q=1"; Fragment := EmptyString |};
     req_Header := {[ "Content-Type" := ["application/x-www-form-urlencoded"] ]};
     req_Body := list_byte_of_string "a=1&a=2&b=x";
     req_ParseForm := None;
     req_Form := {[ "a" := ["1"; "2"]; "b" := ["x"]; "q" := ["1"] ]};
     req_PostForm := {[ "a" := ["1"; "2"]; "b" := ["x"] ]};
     req_ParseMultipartForm := λ _, None;
     req_MultipartForm := no_form |}.

(** The same form body posted to another query string. *)
Definition form_request_other_query : Request :=
  {| req_Method := "POST";
     req_URL := {| Path := "/submit"; RawQuery := "q=2&z=9"; Fragment := EmptyString |};
     req_Header := {[ "Content-Type" := ["application/x-www-form-urlencoded"] ]};
     req_Body := list_byte_of_string "a=1&a=2&b=x";
     req_ParseForm := None;
     req_Form := {[ "a" := ["1"; "2"]; "b" := ["x"]; "q" := ["2"]; "z" := ["9"] ]};
     req_PostForm := {[ "a" := ["1"; "2"]; "b" := ["x"] ]};
     req_ParseMultipartForm := λ _, None;
     req_MultipartForm := no_form |}.

(** A form request whose body does not parse. *)
Definition bad_form_request : Request :=
  {| req_Method := "POST";
     req_URL := {| Path := "/submit"; RawQuery := EmptyString; Fragment := EmptyString |};
     req_Header := {[ "Content-Type" := ["application/x-www-form-urlencoded"] ]};
     req_Body := list_byte_of_string "a=%zz";
     req_ParseForm := Some (Err "invalid URL escape");
     req_Form := ∅;
     req_PostForm := ∅;
     req_ParseMultipartForm := λ _, None;
     req_MultipartForm := no_form |}.

(** POST /v1/orders with a JSON body. *)
Definition json_request : Request :=
  {| req_Method := "POST";
     req_URL := {| Path := "/v1/orders"; RawQuery := EmptyString;
                   Fragment := EmptyString |};
     req_Header := {[ "Content-Type" := ["application/json"] ]};
     req_Body := list_byte_of_string "{}";
     req_ParseForm := None;
     req_Form := ∅;
     req_PostForm := ∅;
     req_ParseMultipartForm := λ _, None;
     req_MultipartForm := no_form |}.

(** A 64-byte multipart upload of one file; the parser accepts it whatever
    its argument, as [ParseMultipartForm] does when the argument is the
    amount of memory to use and the rest goes to temporary files. *)
Definition upload_request : Request :=
  {| req_Method := "POST";
     req_URL := {| Path := "/upload"; RawQuery := EmptyString; Fragment := EmptyString |};
     req_Header := {[ "Content-Type" := ["multipart/form-data; boundary=x"] ]};
     req_Body := replicate 64 x61;
     req_ParseForm := None;
     req_Form := ∅;
     req_PostForm := ∅;
     req_ParseMultipartForm := λ _, None;
     req_MultipartForm :=
       {| Value := ∅;
          File := {[ "file" :=
                       [{| Filename := "a.bin";
                           fh_Open := inr {| f_data := list_byte_of_string "hello";
                                             f_Copy_err := None |} |}] ]} |} |}.

(** The same upload, with a file whose copy fails while it is read. *)
Definition unreadable_upload_request : Request :=
  {| req_Method := "POST";
     req_URL := {| Path := "/upload"; RawQuery := EmptyString; Fragment := EmptyString |};
     req_Header := {[ "Content-Type" := ["multipart/form-data; boundary=x"] ]};
     req_Body := replicate 64 x61;
     req_ParseForm := None;
     req_Form := ∅;
     req_PostForm := ∅;
     req_ParseMultipartForm := λ _, None;
     req_MultipartForm :=
       {| Value := ∅;
          File := {[ "file" :=
                       [{| Filename := "a.bin";
                           fh_Open := inr {| f_data := list_byte_of_string "hello";
                                             f_Copy_err := Some (Err "read error") |} |}] ]} |} |}.


Definition text_response : Response :=
  {| res_StatusCode := 200;
     res_Header := {[ "Content-Type" := ["text/plain"];
                      "Content-Length" := ["2"];
                      "Set-Cookie" := ["a=1"; "b=2"] ]};
     res_Body := list_byte_of_string "{}" |}.

Definition empty_response : Response :=
  {| res_StatusCode := 204; res_Header := ∅; res_Body := [] |}.

Definition answering (res : Response) : Client :=
  {| Timeout := 30; DoAPIRequest := λ _, inr res |}.

Definition unreachable : Client :=
  {| Timeout := 30; DoAPIRequest := λ _, inl (Err "connection refused") |}.

Definition empty_sink : ResponseWriter :=
  {| rw_Header := ∅; rw_Write := λ _, None |}.

Definition keep_json : JSON → JSON := λ m, m.

End Samples.

(** ** Reading a trace *)

Section Traces.
Context `{rt : GoRuntime}.

Definition is_sink_event (e : Event) : bool :=
  match e with
  | EvHeaderAdd _ _ | EvHeaderSet _ _ | EvWriteHeader _ | EvWrite _ | EvCopy _ => true
  | _ => false
  end.

Definition is_send_event (e : Event) : bool :=
  match e with EvDoAPIRequest _ => true | _ => false end.


Definition is_status_write (e : Event) : bool :=
  match e with EvWriteHeader _ => true | _ => false end.

Definition is_header_add (e : Event) : bool :=
  match e with EvHeaderAdd _ _ => true | _ => false end.

Definition is_header_set (e : Event) : bool :=
  match e with EvHeaderSet _ _ => true | _ => false end.

Definition set_events (sets : list (string * string)) : list Event :=
  map (λ kv, EvHeaderSet kv.1 kv.2) sets.

(** Events an encoder may produce: they concern the inbound body and the
    upload file handles only. *)
Definition is_encoder_event (e : Event) : bool :=
  match e with
  | EvReqBodyDecode | EvReqBodyClose | EvFileOpen _ _ | EvFileClose _ _ => true
  | _ => false
  end.

(** Bodies handed to the collaborator client, oldest first. *)
Definition sent_bodies (t : list Event) : list Reader :=
  flat_map (λ e, match e with EvDoAPIRequest r => [api_body r] | _ => [] end) t.

(** Calls made on the outbound sink, oldest first. *)
Definition sink_trace (w : World) : list Event :=
  List.filter is_sink_event (trace w).

(** Upload file handles opened and not closed, scanning the trace. *)
Fixpoint open_handles (t : list Event)
  (opened : list (string * string)) : list (string * string) :=
  match t with
  | [] => opened
  | EvFileOpen k n :: t' => open_handles t' (opened ++ [(k, n)])
  | EvFileClose k n :: t' =>
      open_handles t' (List.filter (λ h, negb (bool_decide (h = (k, n)))) opened)
  | _ :: t' => open_handles t' opened
  end.

(** ** The header transfer, as a function of the sink's header map *)

Definition allowed (hs : list string) (k : string) : bool := bool_decide (k ∈ hs).

Definition add_all_headers (k : string) (vv : list string) (h : Header) : Header :=
  fold_left (λ h v, Header_Add k v h) vv h.

Definition transferred (hs : list string) (l : list (string * list string))
  (h : Header) : Header :=
  fold_left (λ h kvv, if allowed hs kvv.1 then add_all_headers kvv.1 kvv.2 h else h) l h.

Definition transfer_events (hs : list string)
  (l : list (string * list string)) : list Event :=
  flat_map (λ kvv, if allowed hs kvv.1 then map (EvHeaderAdd kvv.1) kvv.2 else []) l.

(** A computation that leaves the sink's header map alone and only adds
    events of the given kind to the trace, whatever it returns. *)
Definition frames {A} (kind : Event → bool) (m : M A) : Prop :=
  ∀ w r w', m w = (r, w') →
    sink_header w' = sink_header w ∧
    ∃ evs, trace w' = trace w ++ evs ∧ Forall (λ e, kind e = true) evs.

End Traces.

(** ** The renderer's own header writes, as data *)

(** The [Set] calls of the streamed path (lines 168-176), in order. *)
Definition passthrough_sets (res : Response) : list (string * string) :=
  [("Content-Type", Header_Get (res_Header res) "Content-Type")]
  ++ (if decide (Header_Get (res_Header res) "Content-Length" = EmptyString) then []
      else [("Content-Length", Header_Get (res_Header res) "Content-Length")])
  ++ (if decide (Header_Get (res_Header res) "Content-Encoding" = EmptyString) then []
      else [("Content-Encoding", Header_Get (res_Header res) "Content-Encoding")]).

(** The [Set] calls of the JSON path (lines 158-159) for a given buffer. *)
Definition json_sets (buf : bytes) : list (string * string) :=
  [("Content-Type", "application/json; charset=utf-8");
   ("Content-Length", Itoa (length buf))].

Definition apply_sets (sets : list (string * string)) (h : Header) : Header :=
  fold_left (λ h kv, Header_Set kv.1 kv.2 h) sets h.

(** The header map of the sink once the allow-listed headers of the
    response are transferred, just before the status is written. *)
Definition header_after_transfer `{rt : GoRuntime} (opt : Options)
  (res : Response) (writer : ResponseWriter) : Header :=
  transferred (TransferResponseHeaders opt) (range (res_Header res))
              (rw_Header writer).

(** The claim of the specification on the resolved path, in its words: the
    inbound path, then a question mark and the query, then a hash and the
    fragment, only the present parts appearing. *)
Definition joined_parts (u : URL) : string :=
  Path u
  +:+ (if decide (RawQuery u = EmptyString) then EmptyString else "?" +:+ RawQuery u)
  +:+ (if decide (Fragment u = EmptyString) then EmptyString else "#" +:+ Fragment u).

(** The three headers the renderer sets itself. *)
Definition special_header (k : string) : bool :=
  bool_decide (k ∈ ["Content-Type"; "Content-Length"; "Content-Encoding"]).

(** ** The convenience entry points (lines 183-220) *)

Section Wrappers.
Context `{rt : GoRuntime}.

Definition ProxyRequestTypeNone : string := EmptyString.
Definition ProxyRequestTypeRaw : string := "RAW".
Definition ProxyRequestTypeForm : string := "FORM".
Definition ProxyRequestTypeMultipartForm : string := "MULTIPART_FORM".

Definition ProxyJSONAPI (c : Client) (method path : string) (httpReq : Request)
  (writer : ResponseWriter) (opts : list (Options → Options))
  : option error * World :=
  ProxyAPI c method path httpReq writer ProxyRequestTypeRaw opts.

Definition TransparentProxyJSONAPI (c : Client) (httpReq : Request)
  (writer : ResponseWriter) : option error * World :=
  ProxyJSONAPI c EmptyString EmptyString httpReq writer [].

Definition ProxyFormAPI (c : Client) (method path : string) (httpReq : Request)
  (writer : ResponseWriter) (opts : list (Options → Options))
  : option error * World :=
  ProxyAPI c method path httpReq writer ProxyRequestTypeForm opts.

Definition TransparentProxyFormAPI (c : Client) (httpReq : Request)
  (writer : ResponseWriter) : option error * World :=
  ProxyAPI c EmptyString EmptyString httpReq writer ProxyRequestTypeForm [].

Definition ProxyMultipartFormAPI (c : Client) (method path : string)
  (httpReq : Request) (writer : ResponseWriter)
  (opts : list (Options → Options)) : option error * World :=
  ProxyAPI c method path httpReq writer ProxyRequestTypeMultipartForm opts.

Definition TransparentProxyMultipartFormAPI (c : Client) (httpReq : Request)
  (writer : ResponseWriter) : option error * World :=
  ProxyAPI c EmptyString EmptyString httpReq writer
    ProxyRequestTypeMultipartForm [].

(** ** More ways to read a trace and a result *)

(** Requests handed to the collaborator client, oldest first. *)
Definition sent_requests (t : list Event) : list APIRequest :=
  flat_map (λ e, match e with EvDoAPIRequest r => [r] | _ => [] end) t.

Definition is_res_close (e : Event) : bool :=
  match e with EvResBodyClose => true | _ => false end.

(** The string form of the inbound URL, as line 34-39 builds it. *)
Definition inbound_URL_String (httpReq : Request) : string :=
  URL_String {| Path := Path (req_URL httpReq);
                RawQuery := RawQuery (req_URL httpReq);
                Fragment := Fragment (req_URL httpReq) |}.

(** Lines 136-156 as one value: the stream to decode (inflated when the
    upstream Content-Encoding is exactly gzip), one decoded value, the
    interceptor, the re-encoding; the first error wins. *)
Definition json_rewrite (interceptor : JSON → JSON) (res : Response)
  : error + bytes :=
  match (if decide (Header_Get (res_Header res) "Content-Encoding" = "gzip")
         then gzip_NewReader (res_Body res) else inr (res_Body res)) with
  | inl e => inl e
  | inr reader =>
      match json_Decode reader with
      | inl e => inl e
      | inr m => json_Encode (interceptor m)
      end
  end.

(** The parts the multipart encoder writes for the parsed fields and for
    the uploads that open, in visiting order, and the calls it makes on the
    upload handles when every copy succeeds. *)
Definition field_parts (entries : list (string * list string)) : list Part :=
  flat_map (λ kvv, map (FieldPart kvv.1) kvv.2) entries.

Definition file_part (k : string) (v : FileHeader) : list Part :=
  match fh_Open v with
  | inr f => [FilePart k (Filename v) (f_data f)]
  | inl _ => []
  end.

Definition file_parts (entries : list (string * list FileHeader)) : list Part :=
  flat_map (λ kvv, flat_map (file_part kvv.1) kvv.2) entries.

(** A writer after a run of successful part writes. *)
Definition mw_add_all (ps : list Part) (mw : MultipartWriter) : MultipartWriter :=
  {| mw_boundary := mw_boundary mw;
     mw_parts := mw_parts mw ++ ps;
     mw_closed := mw_closed mw |}.

(** Lines 310-312: the multipart interceptor, when there is one. *)
Definition intercept_multipart (opt : Options) (mw : MultipartWriter)
  : MultipartWriter :=
  match RequestMultipartFormInterceptor opt with
  | Some interceptor => interceptor mw
  | None => mw
  end.

Definition file_events (entries : list (string * list FileHeader)) : list Event :=
  flat_map (λ kvv,
              flat_map (λ v, [EvFileOpen kvv.1 (Filename v);
                              EvFileClose kvv.1 (Filename v)]) kvv.2)
           entries.

End Wrappers.

(** * Properties *)

(** ** The library functions on examples *)

Example CanonicalMIMEHeaderKey_ex1 :
  CanonicalMIMEHeaderKey "accept-encoding" = "Accept-Encoding".
Proof. reflexivity. Qed.

Example CanonicalMIMEHeaderKey_ex2 :
  CanonicalMIMEHeaderKey "Content-Type" = "Content-Type".
Proof. reflexivity. Qed.

Example CanonicalMIMEHeaderKey_ex3 :
  CanonicalMIMEHeaderKey "x foo" = "x foo".
Proof. reflexivity. Qed.

Example URL_String_ex1 :
  URL_String {| Path := "/v1/orders"; RawQuery := "status=open"; Fragment := EmptyString |}
  = "/v1/orders?status=open".
Proof. reflexivity. Qed.

Example URL_String_ex2 :
  URL_String {| Path := "/a b"; RawQuery := EmptyString; Fragment := "x y" |}
  = "/a%20b#x%20y".
Proof. reflexivity. Qed.

(** ** Header maps *)

Lemma Header_Add_lookup k v (h : Header) K :
  Header_Add k v h !! K =
  if decide (CanonicalMIMEHeaderKey k = K)
  then Some (default [] (h !! K) ++ [v])%list
  else h !! K.
Proof.
  unfold Header_Add. cbv zeta. rewrite lookup_insert.
  case_decide; [subst|]; done.
Qed.

Lemma Header_Set_lookup k v (h : Header) K :
  Header_Set k v h !! K =
  if decide (CanonicalMIMEHeaderKey k = K) then Some [v] else h !! K.
Proof. unfold Header_Set. rewrite lookup_insert. done. Qed.

Lemma add_all_headers_lookup k vv (h : Header) K :
  add_all_headers k vv h !! K =
  match vv with
  | [] => h !! K
  | _ :: _ =>
      if decide (CanonicalMIMEHeaderKey k = K)
      then Some (default [] (h !! K) ++ vv)%list
      else h !! K
  end.
Proof.
  unfold add_all_headers. revert h.
  induction vv as [|v vv IH]; intros h; [done|].
  cbn [fold_left]. rewrite IH. destruct vv as [|v' vv].
  - apply Header_Add_lookup.
  - rewrite Header_Add_lookup.
    destruct (decide (CanonicalMIMEHeaderKey k = K)); [|done].
    cbn. by rewrite <- app_assoc.
Qed.

Lemma add_all_headers_other k vv (h : Header) K :
  CanonicalMIMEHeaderKey k ≠ K → add_all_headers k vv h !! K = h !! K.
Proof.
  intros Hne. rewrite add_all_headers_lookup.
  destruct vv; [done|]. by case_decide.
Qed.


(** With canonical, pairwise distinct upstream keys, the transfer appends
    the values of an allow-listed header and leaves every other one alone. *)
Lemma transferred_lookup hs l (h : Header) K :
  NoDup l.*1 →
  Forall (λ kvv, CanonicalMIMEHeaderKey kvv.1 = kvv.1) l →
  transferred hs l h !! K =
  match list_find (λ kvv, kvv.1 = K) l with
  | Some (_, (_, v :: vs)) =>
      if allowed hs K then Some (default [] (h !! K) ++ v :: vs)%list else h !! K
  | _ => h !! K
  end.
Proof.
  unfold transferred. revert h.
  induction l as [|[k vv] l IH]; intros h Hnd Hcan; [done|].
  cbn [fold_left fst snd]. apply NoDup_cons in Hnd as [Hk Hnd].
  apply Forall_cons in Hcan as [Hck Hcan]. cbn [fst] in Hck.
  rewrite IH by done. clear IH.
  cbn [list_find]. cbn [fst]. case_decide as HkK.
  - subst K. cbn [fmap option_fmap option_map prod_map fst snd].
    assert (list_find (λ kvv : string * list string, kvv.1 = k) l = None) as ->.
    { apply list_find_None. rewrite Forall_forall. intros [k' v'] Hin Heq.
      cbn in Heq. subst k'. apply Hk. apply list_elem_of_fmap. by exists (k, v'). }
    destruct (allowed hs k) eqn:Ha.
    + rewrite add_all_headers_lookup. destruct vv; [done|]. by rewrite decide_True.
    + by destruct vv.
  - assert (∀ h', (if allowed hs k then add_all_headers k vv h' else h') !! K = h' !! K) as Hsame.
    { intros h'. destruct (allowed hs k); [|done].
      apply add_all_headers_other. by rewrite Hck. }
    rewrite Hsame.
    destruct (list_find (λ kvv : string * list string, kvv.1 = K) l) as [[i [k' [|v vs]]]|]; cbn; done.
Qed.

Section Facts.
Context `{rt : GoRuntime}.

(** ** What [range] yields *)

Lemma range_NoDup {A} (m : gmap string A) : NoDup (range m).*1.
Proof.
  rewrite range_perm. apply NoDup_fst_map_to_list.
Qed.

Lemma range_elem_of {A} (m : gmap string A) k v :
  (k, v) ∈ range m ↔ m !! k = Some v.
Proof. rewrite range_perm. apply elem_of_map_to_list. Qed.

Lemma range_find (m : gmap string (list string)) K :
  (λ x, x.2.2) <$> list_find (λ kvv : string * list string, kvv.1 = K) (range m)
  = m !! K.
Proof.
  destruct (list_find _ (range m)) as [[i [k vv]]|] eqn:Hf; cbn.
  - apply list_find_Some in Hf as (Hi & Hk & _). cbn in Hk. subst k.
    symmetry. apply range_elem_of. by eapply list_elem_of_lookup_2.
  - destruct (m !! K) as [vv|] eqn:Hm; [|done].
    apply range_elem_of in Hm.
    rewrite list_find_None, Forall_forall in Hf.
    by destruct (Hf _ Hm).
Qed.

(** The transfer from an upstream header map with canonical keys. *)
Lemma transferred_range hs (m h : Header) K :
  map_Forall (λ k _, CanonicalMIMEHeaderKey k = k) m →
  transferred hs (range m) h !! K =
  match m !! K with
  | Some (v :: vs) =>
      if allowed hs K then Some (default [] (h !! K) ++ v :: vs)%list else h !! K
  | _ => h !! K
  end.
Proof.
  intros Hcan. rewrite transferred_lookup.
  - rewrite <- (range_find m K).
    by destruct (list_find _ (range m)) as [[i [k [|v vs]]]|].
  - apply range_NoDup.
  - rewrite Forall_forall. intros [k vv] Hin.
    apply range_elem_of in Hin. cbn. by eapply Hcan.
Qed.

(** ** Running the loops of the renderer *)

Lemma add_values_run k vv (w : World) :
  add_values k vv w =
  (inr tt, {| sink_header := add_all_headers k vv (sink_header w);
              trace := trace w ++ map (EvHeaderAdd k) vv |}).
Proof.
  unfold add_values, add_all_headers. revert w.
  induction vv as [|v vv IH]; intros [h t].
  - cbn. by rewrite app_nil_r.
  - cbn. cbn in IH. rewrite IH. cbn. by rewrite <- app_assoc.
Qed.

Lemma transfer_header_run k vv hs (w : World) :
  transfer_header k vv hs w =
  if allowed hs k then add_values k vv w else (inr tt, w).
Proof.
  unfold allowed. induction hs as [|h hs IH]; [done|].
  cbn [transfer_header]. destruct (decide (k = h)) as [<-|Hk].
  - rewrite bool_decide_eq_true_2; [done|]. left.
  - rewrite IH. case_bool_decide as H1; case_bool_decide as H2; try done.
    + exfalso. apply H2. by right.
    + exfalso. apply elem_of_cons in H2 as [?|?]; done.
Qed.

Lemma transfer_loop_run hs l (w : World) :
  foldM (λ _ kvv, transfer_header kvv.1 kvv.2 hs) l tt w =
  (inr tt, {| sink_header := transferred hs l (sink_header w);
              trace := trace w ++ transfer_events hs l |}).
Proof.
  unfold transferred, transfer_events. revert w.
  induction l as [|[k vv] l IH]; intros [h t].
  - cbn. by rewrite app_nil_r.
  - cbn [foldM]. unfold bind at 1. rewrite transfer_header_run.
    cbn [fst snd fold_left flat_map].
    destruct (allowed hs k).
    + rewrite add_values_run. cbn in IH. rewrite IH. cbn. by rewrite <- app_assoc.
    + cbn in IH. rewrite IH. done.
Qed.

Lemma transfer_headers_run res opt (w : World) :
  transfer_headers res opt w =
  (inr tt,
   {| sink_header :=
        transferred (TransferResponseHeaders opt) (range (res_Header res))
                    (sink_header w);
      trace := trace w ++
        transfer_events (TransferResponseHeaders opt) (range (res_Header res)) |}).
Proof. apply transfer_loop_run. Qed.

Lemma transfer_events_adds hs l :
  Forall (λ e, is_header_add e = true) (transfer_events hs l).
Proof.
  unfold transfer_events. induction l as [|[k vv] l IH]; [constructor|].
  cbn. apply Forall_app. split; [|done].
  destruct (allowed hs k); [|constructor].
  apply Forall_fmap. by apply Forall_true.
Qed.

(** ** Computations that stay away from the sink *)

Lemma frames_ret {A} kind (a : A) : frames kind (ret a).
Proof.
  intros w r w' [= <- <-]. split; [done|]. exists []. by rewrite app_nil_r.
Qed.

Lemma frames_fail {A} kind e : frames kind (fail (A:=A) e).
Proof.
  intros w r w' [= <- <-]. split; [done|]. exists []. by rewrite app_nil_r.
Qed.

Lemma frames_lift {A} kind (r : error + A) : frames kind (lift r).
Proof. destruct r; [apply frames_fail | apply frames_ret]. Qed.

Lemma frames_check kind (r : option error) : frames kind (check r).
Proof. destruct r; [apply frames_fail | apply frames_ret]. Qed.

Lemma frames_emit kind e : kind e = true → frames kind (emit e).
Proof.
  intros He w r w' [= <- <-]. split; [done|]. exists [e]. split; [done|].
  by constructor.
Qed.

Lemma frames_bind {A B} kind (m : M A) (k : A → M B) :
  frames kind m → (∀ a, frames kind (k a)) → frames kind (bind m k).
Proof.
  intros Hm Hk w r w'. unfold bind.
  destruct (m w) as [[e|a] w1] eqn:Hmw.
  - intros [= <- <-]. by apply (Hm _ _ _ Hmw).
  - intros Hka. destruct (Hm _ _ _ Hmw) as (Hh1 & evs1 & Ht1 & Hf1).
    destruct (Hk _ _ _ _ Hka) as (Hh2 & evs2 & Ht2 & Hf2).
    split; [congruence|]. exists (evs1 ++ evs2)%list. split.
    + by rewrite Ht2, Ht1, app_assoc.
    + by apply Forall_app.
Qed.

Lemma frames_defer {A} kind (cleanup : M unit) (body : M A) :
  frames kind cleanup → frames kind body → frames kind (defer cleanup body).
Proof.
  intros Hc Hb w r w'. unfold defer.
  destruct (body w) as [rb w1] eqn:Hbw.
  destruct (cleanup w1) as [rc w2] eqn:Hcw. cbn. intros [= <- <-].
  destruct (Hb _ _ _ Hbw) as (Hh1 & evs1 & Ht1 & Hf1).
  destruct (Hc _ _ _ Hcw) as (Hh2 & evs2 & Ht2 & Hf2).
  split; [congruence|]. exists (evs1 ++ evs2)%list. split.
  - by rewrite Ht2, Ht1, app_assoc.
  - by apply Forall_app.
Qed.

Lemma frames_foldM {A B} kind (f : B → A → M B) l b :
  (∀ b x, frames kind (f b x)) → frames kind (foldM f l b).
Proof.
  intros Hf. revert b. induction l as [|x l IH]; intros b; cbn [foldM].
  - apply frames_ret.
  - apply frames_bind; [apply Hf | apply IH].
Qed.

Lemma parseRawRequest_frames req opt :
  frames is_encoder_event (parseRawRequest req opt).
Proof.
  unfold parseRawRequest. destruct (RequestJSONInterceptor opt).
  - apply frames_defer; [by apply frames_emit|].
    apply frames_bind; [by apply frames_emit|]. intros _.
    apply frames_bind; [apply frames_lift|]. intros m.
    apply frames_bind; [apply frames_lift|]. intros buf.
    apply frames_ret.
  - apply frames_ret.
Qed.

Lemma parseFormRequest_frames req opt :
  frames is_encoder_event (parseFormRequest req opt).
Proof.
  unfold parseFormRequest.
  apply frames_bind; [apply frames_check|]. intros _. apply frames_ret.
Qed.

Lemma copy_file_frames k mw v : frames is_encoder_event (copy_file k mw v).
Proof.
  unfold copy_file.
  apply frames_bind; [apply frames_lift|]. intros f.
  apply frames_bind; [by apply frames_emit|]. intros _.
  apply frames_bind; [apply frames_check|]. intros _.
  apply frames_bind; [apply frames_check|]. intros _.
  apply frames_bind; [by apply frames_emit|]. intros _.
  apply frames_ret.
Qed.

Lemma parseMultipartFormRequest_frames req opt :
  frames is_encoder_event (parseMultipartFormRequest req opt).
Proof.
  unfold parseMultipartFormRequest.
  apply frames_bind; [apply frames_check|]. intros _.
  apply frames_bind.
  { apply frames_foldM. intros mw [k vv]. apply frames_foldM. intros mw' v.
    unfold WriteField. apply frames_bind; [apply frames_check|]. intros _.
    apply frames_ret. }
  intros mw. apply frames_bind.
  { apply frames_foldM. intros mw' [k vv]. apply frames_foldM. intros mw'' v.
    apply copy_file_frames. }
  intros mw'. apply frames_ret.
Qed.

Lemma reqParseFunc_frames requestType req opt :
  frames is_encoder_event (reqParseFunc requestType req opt).
Proof.
  unfold reqParseFunc. repeat case_decide.
  - apply parseRawRequest_frames.
  - apply parseFormRequest_frames.
  - apply parseMultipartFormRequest_frames.
  - apply frames_ret.
Qed.

Lemma encoder_events_no_sink (evs : list Event) :
  Forall (λ e, is_encoder_event e = true) evs →
  List.filter is_sink_event evs = [] ∧ List.filter is_send_event evs = [].
Proof.
  induction 1 as [|e evs He _ [IH1 IH2]]; [done|].
  destruct e; cbn in *; try done.
Qed.

(** An encoder, whatever it returns, has made no call on the sink and sent
    nothing. *)
Lemma reqParseFunc_quiet requestType req opt writer r w' :
  reqParseFunc requestType req opt (init_world writer) = (r, w') →
  sink_header w' = rw_Header writer ∧
  Forall (λ e, is_encoder_event e = true) (trace w').
Proof.
  intros H. destruct (reqParseFunc_frames _ _ _ _ _ _ H) as (Hh & evs & Ht & Hf).
  split; [done|]. by rewrite Ht.
Qed.

(** The call up to the response phase: the encoder has returned a body and
    a content type and the client has answered. *)
Lemma ProxyAPI_response_phase c method path httpReq writer requestType opts
    parsed w0 res :
  reqParseFunc requestType httpReq (build_options c opts) (init_world writer)
    = (inr parsed, w0) →
  DoAPIRequest c (outbound_request method path httpReq (build_options c opts) parsed)
    = inr res →
  ProxyAPI c method path httpReq writer requestType opts =
  run (defer (emit EvResBodyClose) (render (build_options c opts) res writer))
      {| sink_header := rw_Header writer;
         trace := trace w0 ++
           [EvDoAPIRequest
              (outbound_request method path httpReq (build_options c opts) parsed)] |}.
Proof.
  intros Henc Hsend.
  destruct (reqParseFunc_quiet _ _ _ _ _ _ Henc) as [Hh _].
  unfold ProxyAPI, ProxyAPI_M, run, bind at 1. rewrite Henc.
  unfold bind at 1. cbn [emit]. unfold bind at 1. rewrite Hsend. cbn [lift ret].
  by rewrite Hh.
Qed.

(** C9: when the selected encoder returns an error, the call returns that
    error, no request is sent and no call is made on the outbound sink (its
    header map is untouched, no status, no body); when the client's send
    fails, the call returns that very error, after a single send and still
    without any call on the sink. *)
Theorem C9_errors_abort_the_call c method path httpReq writer requestType opts :
  (∀ e w0,
     reqParseFunc requestType httpReq (build_options c opts) (init_world writer)
       = (inl e, w0) →
     ∃ w, ProxyAPI c method path httpReq writer requestType opts = (Some e, w) ∧
          sink_header w = rw_Header writer ∧
          sink_trace w = [] ∧
          List.filter is_send_event (trace w) = [])
  ∧
  (∀ parsed w0 e,
     reqParseFunc requestType httpReq (build_options c opts) (init_world writer)
       = (inr parsed, w0) →
     DoAPIRequest c (outbound_request method path httpReq (build_options c opts) parsed)
       = inl e →
     ∃ w, ProxyAPI c method path httpReq writer requestType opts = (Some e, w) ∧
          sink_header w = rw_Header writer ∧
          sink_trace w = [] ∧
          List.filter is_send_event (trace w) =
            [EvDoAPIRequest
               (outbound_request method path httpReq (build_options c opts) parsed)]).
Proof.
  split.
  - intros e w0 Henc. exists w0.
    destruct (reqParseFunc_quiet _ _ _ _ _ _ Henc) as [Hh Hev].
    apply encoder_events_no_sink in Hev as [Hsink Hsend].
    split; [|done].
    unfold ProxyAPI, ProxyAPI_M, run, bind at 1. by rewrite Henc.
  - intros parsed w0 e Henc Hsend.
    destruct (reqParseFunc_quiet _ _ _ _ _ _ Henc) as [Hh Hev].
    apply encoder_events_no_sink in Hev as [Hsink Hsent].
    eexists. split.
    + unfold ProxyAPI, ProxyAPI_M, run, bind at 1. rewrite Henc.
      unfold bind at 1. cbn [emit]. unfold bind at 1. rewrite Hsend.
      cbn [lift fail]. reflexivity.
    + cbn [sink_header trace]. unfold sink_trace. cbn [trace].
      rewrite !List.filter_app, Hsink, Hsent. done.
Qed.

(** ** Running the renderer *)

Lemma render_passthrough opt res writer (w : World) :
  ResponseJSONInterceptor opt = None →
  render opt res writer w =
  (match rw_Write writer (res_Body res) with Some e => inl e | None => inr tt end,
   {| sink_header :=
        apply_sets (passthrough_sets res)
          (transferred (TransferResponseHeaders opt) (range (res_Header res))
                       (sink_header w));
      trace := trace w
        ++ transfer_events (TransferResponseHeaders opt) (range (res_Header res))
        ++ EvWriteHeader (res_StatusCode res)
           :: set_events (passthrough_sets res)
        ++ [EvCopy (res_Body res)] |}).
Proof.
  intros Hnone. unfold render, bind at 1. rewrite transfer_headers_run.
  rewrite Hnone. unfold passthrough_sets.
  destruct (decide (Header_Get (res_Header res) "Content-Length" = EmptyString));
    destruct (decide (Header_Get (res_Header res) "Content-Encoding" = EmptyString));
    destruct (rw_Write writer (res_Body res));
    cbn; rewrite <- ?app_assoc; cbn; reflexivity.
Qed.

Lemma render_json opt res writer interceptor (w : World) :
  ResponseJSONInterceptor opt = Some interceptor →
  let w1 :=
    {| sink_header :=
         transferred (TransferResponseHeaders opt) (range (res_Header res))
                     (sink_header w);
       trace := trace w
         ++ transfer_events (TransferResponseHeaders opt) (range (res_Header res))
         ++ [EvWriteHeader (res_StatusCode res)] |} in
  render opt res writer w =
  match (if decide (Header_Get (res_Header res) "Content-Encoding" = "gzip")
         then gzip_NewReader (res_Body res) else inr (res_Body res)) with
  | inl e => (inl e, w1)
  | inr reader =>
      match json_Decode reader with
      | inl e => (inl e, w1)
      | inr m =>
          match json_Encode (interceptor m) with
          | inl e => (inl e, w1)
          | inr buf =>
              (match rw_Write writer buf with Some e => inl e | None => inr tt end,
               {| sink_header := apply_sets (json_sets buf) (sink_header w1);
                  trace := trace w1
                    ++ set_events (json_sets buf)
                    ++ [EvWrite buf] |})
          end
      end
  end.
Proof.
  intros Hsome. unfold render, bind at 1. rewrite transfer_headers_run.
  rewrite Hsome.
  destruct (decide (Header_Get (res_Header res) "Content-Encoding" = "gzip")) as [Hgz|Hgz];
    [destruct (gzip_NewReader (res_Body res)) as [e|reader] | ];
    cbn; rewrite <- ?app_assoc; try reflexivity.
  - destruct (json_Decode reader) as [e|m]; cbn; [reflexivity|].
    destruct (json_Encode (interceptor m)) as [e|buf]; cbn; [reflexivity|].
    destruct (rw_Write writer buf); cbn; rewrite <- ?app_assoc; reflexivity.
  - destruct (json_Decode (res_Body res)) as [e|m]; cbn; [reflexivity|].
    destruct (json_Encode (interceptor m)) as [e|buf]; cbn; [reflexivity|].
    destruct (rw_Write writer buf); cbn; rewrite <- ?app_assoc; reflexivity.
Qed.

Lemma run_defer_close (m : M unit) (w : World) r w' :
  m w = (r, w') →
  run (defer (emit EvResBodyClose) m) w =
  (match r with inl e => Some e | inr _ => None end,
   {| sink_header := sink_header w'; trace := trace w' ++ [EvResBodyClose] |}).
Proof. intros H. unfold run, defer. rewrite H. by destruct r. Qed.

(** ** Filtering traces *)

Lemma filter_none (P Q : Event → bool) (l : list Event) :
  Forall (λ e, P e = true) l →
  (∀ e, P e = true → Q e = false) →
  List.filter Q l = [].
Proof.
  intros Hl HPQ. induction Hl as [|e l He _ IH]; [done|].
  cbn. by rewrite (HPQ _ He).
Qed.

Lemma filter_all (P : Event → bool) (l : list Event) :
  Forall (λ e, P e = true) l → List.filter P l = l.
Proof.
  induction 1 as [|e l He _ IH]; [done|]. cbn. by rewrite He, IH.
Qed.

Lemma set_events_sets sets : Forall (λ e, is_header_set e = true) (set_events sets).
Proof. unfold set_events. apply Forall_fmap. by apply Forall_true. Qed.

Lemma canon_Content_Type : CanonicalMIMEHeaderKey "Content-Type" = "Content-Type".
Proof. reflexivity. Qed.






(** ** The shape of every call that reaches the response phase

    The renderer's own sets concern the three special headers only, and the
    body is written at most once: not at all when decompression, decoding or
    re-encoding fails, by one [Write] of the re-encoded buffer on the JSON
    path, by one copy of the upstream body otherwise. *)
Lemma render_shape opt res writer (ws : World) rr w' :
  render opt res writer ws = (rr, w') →
  ∃ sets body_evs,
    sink_header w'
      = apply_sets sets
          (transferred (TransferResponseHeaders opt) (range (res_Header res))
                       (sink_header ws)) ∧
    trace w'
      = trace ws
        ++ transfer_events (TransferResponseHeaders opt) (range (res_Header res))
        ++ EvWriteHeader (res_StatusCode res) :: set_events sets ++ body_evs ∧
    Forall (λ kv, special_header kv.1 = true) sets ∧
    ((sets = [] ∧ body_evs = [] ∧ (∃ e, rr = inl e) ∧
      is_Some (ResponseJSONInterceptor opt))
     ∨ (∃ buf, is_Some (ResponseJSONInterceptor opt) ∧
               sets = json_sets buf ∧ body_evs = [EvWrite buf] ∧
               rr = match rw_Write writer buf with
                    | Some e => inl e | None => inr tt end)
     ∨ (ResponseJSONInterceptor opt = None ∧
        sets = passthrough_sets res ∧ body_evs = [EvCopy (res_Body res)] ∧
        rr = match rw_Write writer (res_Body res) with
             | Some e => inl e | None => inr tt end)).
Proof.
  destruct (ResponseJSONInterceptor opt) as [f|] eqn:Hint.
  - rewrite (render_json _ res writer f ws Hint). cbv zeta.
    assert (∀ e : error,
      ∃ sets body_evs,
        transferred (TransferResponseHeaders opt) (range (res_Header res))
                    (sink_header ws)
          = apply_sets sets
              (transferred (TransferResponseHeaders opt) (range (res_Header res))
                           (sink_header ws)) ∧
        trace ws
          ++ transfer_events (TransferResponseHeaders opt) (range (res_Header res))
          ++ [EvWriteHeader (res_StatusCode res)]
          = trace ws
            ++ transfer_events (TransferResponseHeaders opt) (range (res_Header res))
            ++ EvWriteHeader (res_StatusCode res) :: set_events sets ++ body_evs ∧
        Forall (λ kv : string * string, special_header kv.1 = true) sets ∧
        ((sets = [] ∧ body_evs = [] ∧ (∃ e', inl e = @inl error unit e') ∧
          is_Some (Some f))
         ∨ (∃ buf, is_Some (Some f) ∧
                   sets = json_sets buf ∧ body_evs = [EvWrite buf] ∧
                   inl e = match rw_Write writer buf with
                           | Some e => inl e | None => inr tt end)
         ∨ (Some f = None ∧
            sets = passthrough_sets res ∧ body_evs = [EvCopy (res_Body res)] ∧
            inl e = match rw_Write writer (res_Body res) with
                    | Some e => inl e | None => inr tt end))) as Hfail.
    { intros e. exists [], []. split; [done|]. split; [done|].
      split; [constructor|]. left. by eauto. }
    destruct (if decide (Header_Get (res_Header res) "Content-Encoding" = "gzip")
              then gzip_NewReader (res_Body res) else inr (res_Body res))
      as [e|reader]; [intros [= <- <-]; apply Hfail|].
    destruct (json_Decode reader) as [e|m]; [intros [= <- <-]; apply Hfail|].
    destruct (json_Encode (f m)) as [e|buf]; [intros [= <- <-]; apply Hfail|].
    clear Hfail. intros [= <- <-]. exists (json_sets buf), [EvWrite buf].
    cbn [sink_header trace]. split; [done|]. split.
    { rewrite <- !app_assoc. done. }
    split; [by repeat constructor|]. right; left. exists buf. by eauto.
  - rewrite (render_passthrough _ res writer ws Hint).
    intros [= <- <-]. exists (passthrough_sets res), [EvCopy (res_Body res)].
    cbn [sink_header trace]. split; [done|]. split; [done|].
    split.
    { unfold passthrough_sets. repeat case_decide; by repeat constructor. }
    right; right. done.
Qed.






(** ** The encoders *)

(** C6: without a request JSON interceptor the raw encoder hands over the
    inbound body without reading or closing it, with the inbound
    Content-Type, or application/octet-stream when there is none; with an
    interceptor it decodes one JSON value from the body and closes the body
    on every path, returns the decoding (or encoding) error and no body when
    there is one, and otherwise the re-encoding of the interceptor's result
    with content type application/json; charset=utf-8. *)
Theorem C6_raw_encoder req opt (w : World) :
  (RequestJSONInterceptor opt = None →
   parseRawRequest req opt w =
   (inr (BodyReader (req_Body req),
         if decide (Header_Get (req_Header req) "Content-Type" = EmptyString)
         then "application/octet-stream"
         else Header_Get (req_Header req) "Content-Type"), w) ∧
   (req_Header req !! "Content-Type" = None →
    parseRawRequest req opt w =
    (inr (BodyReader (req_Body req), "application/octet-stream"), w)))
  ∧
  (∀ interceptor, RequestJSONInterceptor opt = Some interceptor →
   parseRawRequest req opt w =
   (match json_Decode (req_Body req) with
    | inl e => inl e
    | inr m =>
        match json_Encode (interceptor m) with
        | inl e => inl e
        | inr buf => inr (BufferReader buf, "application/json; charset=utf-8")
        end
    end,
    {| sink_header := sink_header w;
       trace := trace w ++ [EvReqBodyDecode; EvReqBodyClose] |})).
Proof.
  split.
  - intros Hnone. unfold parseRawRequest. rewrite Hnone. split; [done|].
    intros Habs. unfold Header_Get. rewrite canon_Content_Type, Habs. done.
  - intros f Hf. unfold parseRawRequest. rewrite Hf.
    unfold defer, bind, emit, lift, ret, fail. cbn.
    destruct (json_Decode (req_Body req)) as [e|m]; cbn.
    + by rewrite <- app_assoc.
    + destruct (json_Encode (f m)) as [e|buf]; cbn; by rewrite <- app_assoc.
Qed.

Lemma Values_Add_lookup k v (f : Values) K :
  Values_Add k v f !! K =
  if decide (k = K) then Some (default [] (f !! K) ++ [v]) else f !! K.
Proof.
  unfold Values_Add. rewrite lookup_insert. case_decide; [subst|]; done.
Qed.

Lemma add_all_lookup k vv (f : Values) K :
  add_all k vv f !! K =
  match vv with
  | [] => f !! K
  | _ :: _ => if decide (k = K) then Some (default [] (f !! K) ++ vv) else f !! K
  end.
Proof.
  unfold add_all. revert f.
  induction vv as [|v vv IH]; intros f; [done|].
  cbn [fold_left]. rewrite IH. destruct vv as [|v' vv].
  - apply Values_Add_lookup.
  - rewrite Values_Add_lookup. destruct (decide (k = K)); [|done].
    cbn. by rewrite <- app_assoc.
Qed.

Lemma rebuild_lookup (l : list (string * list string)) (f : Values) K :
  NoDup l.*1 →
  fold_left (λ form kvv, add_all kvv.1 kvv.2 form) l f !! K =
  match list_find (λ kvv : string * list string, kvv.1 = K) l with
  | Some (_, (_, v :: vs)) => Some (default [] (f !! K) ++ v :: vs)
  | _ => f !! K
  end.
Proof.
  revert f. induction l as [|[k vv] l IH]; intros f Hnd; [done|].
  cbn [fold_left fst snd]. apply NoDup_cons in Hnd as [Hk Hnd].
  rewrite IH by done. clear IH. cbn [list_find]. cbn [fst].
  destruct (decide (k = K)) as [->|HkK].
  - cbn [fmap option_fmap option_map prod_map fst snd].
    assert (list_find (λ kvv : string * list string, kvv.1 = K) l = None) as ->.
    { apply list_find_None. rewrite Forall_forall. intros [k' v'] Hin Heq.
      cbn in Heq. subst k'. apply Hk. apply list_elem_of_fmap. by exists (K, v'). }
    rewrite add_all_lookup. destruct vv; [done|]. by rewrite decide_True.
  - assert (add_all k vv f !! K = f !! K) as Hsame.
    { rewrite add_all_lookup. destruct vv; [done|]. by rewrite decide_False. }
    rewrite Hsame.
    destruct (list_find (λ kvv : string * list string, kvv.1 = K) l)
      as [[i [k' [|v vs]]]|]; cbn; done.
Qed.

(** The rebuilt form holds exactly the keys of the parsed body that have a
    value, each with all its values in order, whatever the visiting order. *)
Lemma rebuild_form_lookup (m : Values) K :
  rebuild_form (range m) !! K =
  match m !! K with
  | Some (v :: vs) => Some (v :: vs)
  | _ => None
  end.
Proof.
  unfold rebuild_form. rewrite rebuild_lookup by apply range_NoDup.
  rewrite <- (range_find m K), lookup_empty.
  by destruct (list_find _ (range m)) as [[i [k [|v vs]]]|].
Qed.

(** C10: the form handed to the form interceptor (and encoded as the body
    when there is none) has, under every key, exactly the values parsed
    from the inbound body (PostForm), all of them and in order; nothing
    else of the request enters the encoded body, so a parameter present only
    in the query string (in Form and in the URL, not in PostForm) cannot
    appear in it. *)
Theorem C10_form_body_from_PostForm req opt (w : World) :
  (∀ K, rebuild_form (range (req_PostForm req)) !! K =
        match req_PostForm req !! K with
        | Some (v :: vs) => Some (v :: vs)
        | _ => None
        end)
  ∧
  (req_ParseForm req = None →
   ∃ contentType,
     parseFormRequest req opt w =
     (inr (StringReader
             (Values_Encode
                match RequestFormInterceptor opt with
                | Some interceptor =>
                    interceptor (rebuild_form (range (req_PostForm req)))
                | None => rebuild_form (range (req_PostForm req))
                end), contentType), w))
  ∧
  (∀ req',
     req_ParseForm req' = req_ParseForm req →
     req_PostForm req' = req_PostForm req →
     req_Header req' = req_Header req →
     parseFormRequest req' opt w = parseFormRequest req opt w).
Proof.
  split; [intros K; apply rebuild_form_lookup|]. split.
  - intros Hok. eexists. unfold parseFormRequest. rewrite Hok.
    unfold bind, check, ret. reflexivity.
  - intros req' H1 H2 H3. unfold parseFormRequest. by rewrite H1, H2, H3.
Qed.

(** A parse failure of the multipart encoder is returned before any field
    is written and any file opened. *)
Lemma parseMultipartFormRequest_parse_error req opt (w : World) e :
  req_ParseMultipartForm req (MaxUploadSize opt) = Some e →
  parseMultipartFormRequest req opt w = (inl e, w).
Proof.
  intros H. unfold parseMultipartFormRequest, bind at 1. by rewrite H.
Qed.

(** The size limit reaches the encoder through the parser's answer only. *)
Lemma parseMultipartFormRequest_limit_unused req opt n (w : World) :
  req_ParseMultipartForm req (MaxUploadSize opt) = None →
  req_ParseMultipartForm req n = None →
  parseMultipartFormRequest req (WithMaxUploadSize n opt) w
  = parseMultipartFormRequest req opt w.
Proof.
  intros H1 H2. unfold parseMultipartFormRequest, bind at 1 3.
  cbn [MaxUploadSize WithMaxUploadSize RequestMultipartFormInterceptor].
  by rewrite H1, H2.
Qed.

(** The three exits of the loop body over uploads: a failed open leaves no
    handle behind; a failed part creation or a failed copy returns with the
    handle opened and not closed; only the normal exit closes it. *)
Lemma copy_file_exits k mw v (w : World) :
  copy_file k mw v w =
  match fh_Open v with
  | inl e => (inl e, w)
  | inr f =>
      match CreateFormFile_err k (Filename v) with
      | Some e =>
          (inl e, {| sink_header := sink_header w;
                     trace := trace w ++ [EvFileOpen k (Filename v)] |})
      | None =>
          match f_Copy_err f with
          | Some e =>
              (inl e, {| sink_header := sink_header w;
                         trace := trace w ++ [EvFileOpen k (Filename v)] |})
          | None =>
              (inr (mw_add (FilePart k (Filename v) (f_data f)) mw),
               {| sink_header := sink_header w;
                  trace := trace w ++ [EvFileOpen k (Filename v);
                                       EvFileClose k (Filename v)] |})
          end
      end
  end.
Proof.
  unfold copy_file, bind, lift, check, emit, ret, fail.
  destruct (fh_Open v) as [e|f]; [done|]. cbn.
  destruct (CreateFormFile_err k (Filename v)); [done|]. cbn.
  destruct (f_Copy_err f); [done|]. cbn. by rewrite <- app_assoc.
Qed.

(** ** The resolved path and method *)

Lemma escape_id s mode :
  Forall (λ c, shouldEscape c mode = false) (list_ascii_of_string s) →
  escape s mode = s.
Proof.
  induction s as [|c s IH]; [done|]. cbn [list_ascii_of_string escape].
  intros H. apply Forall_cons in H as [Hc Hs]. by rewrite Hc, IH.
Qed.

(** C5 (amended): with an empty path argument the outbound path is the
    string form of a URL made of the inbound path, query and fragment: the
    percent-escaped path (behind a dot and a slash when its first segment
    holds a colon), a question mark and the raw query only when the query is
    non-empty, a hash and the percent-escaped fragment only when the
    fragment is non-empty; it is the inbound path, query and fragment joined
    as they are when path and fragment hold no byte that gets escaped and
    the first path segment holds no colon.  A non-empty path argument is
    used as it is, an empty method argument is replaced by the inbound
    method, and a non-empty one is kept. *)
Theorem C5_outbound_path_and_method method path httpReq opt parsed :
  (path = EmptyString →
   api_path (outbound_request method path httpReq opt parsed)
   = (if first_segment_has_colon (EscapedPath (req_URL httpReq))
      then "./" else EmptyString)
     +:+ EscapedPath (req_URL httpReq)
     +:+ (if decide (RawQuery (req_URL httpReq) = EmptyString) then EmptyString
          else "?" +:+ RawQuery (req_URL httpReq))
     +:+ (if decide (Fragment (req_URL httpReq) = EmptyString) then EmptyString
          else "#" +:+ EscapedFragment (req_URL httpReq)))
  ∧
  (path = EmptyString →
   Forall (λ c, shouldEscape c encodePath = false)
          (list_ascii_of_string (Path (req_URL httpReq))) →
   Forall (λ c, shouldEscape c encodeFragment = false)
          (list_ascii_of_string (Fragment (req_URL httpReq))) →
   first_segment_has_colon (Path (req_URL httpReq)) = false →
   api_path (outbound_request method path httpReq opt parsed)
   = joined_parts (req_URL httpReq))
  ∧
  (path ≠ EmptyString →
   api_path (outbound_request method path httpReq opt parsed) = path)
  ∧
  (method = EmptyString →
   api_method (outbound_request method path httpReq opt parsed)
   = req_Method httpReq)
  ∧
  (method ≠ EmptyString →
   api_method (outbound_request method path httpReq opt parsed) = method).
Proof.
  unfold outbound_request, resolve_path, resolve_method.
  cbn [api_path api_method NewAPIRequest].
  destruct (req_URL httpReq) as [p q f]. cbn [Path RawQuery Fragment].
  repeat split.
  - intros ->. done.
  - intros -> Hp Hf Hcolon. rewrite decide_True by done.
    unfold URL_String, joined_parts, EscapedPath, EscapedFragment.
    cbn [Path RawQuery Fragment].
    assert ((if decide (p = "*") then "*" else escape p encodePath) = p) as ->.
    { case_decide; [done|]. by apply escape_id. }
    rewrite Hcolon, (escape_id f) by done. done.
  - intros Hne. by rewrite decide_False.
  - intros ->. done.
  - intros Hne. by rewrite decide_False.
Qed.

End Facts.

(** * The theorems at concrete calls *)

Section Instances.
#[local] Existing Instance sample_runtime.








Lemma C5_outbound_path_and_method_witness :
  Forall (λ c, shouldEscape c encodePath = false)
         (list_ascii_of_string (Path (req_URL orders_request))) ∧
  Forall (λ c, shouldEscape c encodeFragment = false)
         (list_ascii_of_string (Fragment (req_URL orders_request))) ∧
  first_segment_has_colon (Path (req_URL orders_request)) = false ∧
  api_path (outbound_request EmptyString EmptyString orders_request
              (build_options (answering text_response) []) (NilReader, EmptyString))
    = "/v1/orders?status=open" ∧
  api_method (outbound_request EmptyString EmptyString orders_request
                (build_options (answering text_response) []) (NilReader, EmptyString))
    = "GET" ∧
  api_path (outbound_request "PUT" "/v2/items" orders_request
              (build_options (answering text_response) []) (NilReader, EmptyString))
    = "/v2/items" ∧
  api_method (outbound_request "PUT" "/v2/items" orders_request
                (build_options (answering text_response) []) (NilReader, EmptyString))
    = "PUT".
Proof.
  assert (Forall (λ c, shouldEscape c encodePath = false)
            (list_ascii_of_string (Path (req_URL orders_request)))) as Hp.
  { unfold orders_request. cbn [req_URL Path list_ascii_of_string].
    repeat (constructor; [reflexivity|]). constructor. }
  assert (Forall (λ c, shouldEscape c encodeFragment = false)
            (list_ascii_of_string (Fragment (req_URL orders_request)))) as Hf.
  { constructor. }
  split; [exact Hp|]. split; [exact Hf|]. split; [reflexivity|].
  destruct (C5_outbound_path_and_method EmptyString EmptyString orders_request
              (build_options (answering text_response) []) (NilReader, EmptyString))
    as (_ & Hjoin & _ & Hm & _).
  destruct (C5_outbound_path_and_method "PUT" "/v2/items" orders_request
              (build_options (answering text_response) []) (NilReader, EmptyString))
    as (_ & _ & Hpath & _ & Hmethod).
  split; [exact (Hjoin eq_refl Hp Hf eq_refl)|]. split; [exact (Hm eq_refl)|].
  split; [by apply Hpath|by apply Hmethod].
Defined.

(** The claim C5 fails on a path with a byte that URL syntax escapes: the
    outbound path is the escaped form, not the inbound path as it is. *)
Lemma C5_counterexample :
  api_path (outbound_request EmptyString EmptyString spaced_request
              (build_options (answering text_response) []) (NilReader, EmptyString))
    = "/a%20b" ∧
  joined_parts (req_URL spaced_request) = "/a b" ∧
  api_path (outbound_request EmptyString EmptyString spaced_request
              (build_options (answering text_response) []) (NilReader, EmptyString))
    ≠ joined_parts (req_URL spaced_request).
Proof. split; [reflexivity|]. split; [reflexivity|]. by vm_compute. Qed.

Lemma C6_raw_encoder_witness :
  RequestJSONInterceptor (build_options (answering text_response) []) = None ∧
  RequestJSONInterceptor
    (build_options (answering text_response) [WithRequestJSONInterceptor keep_json])
    = Some keep_json ∧
  parseRawRequest json_request (build_options (answering text_response) [])
    (init_world empty_sink)
    = (inr (BodyReader (list_byte_of_string "{}"), "application/json"),
       init_world empty_sink) ∧
  parseRawRequest json_request
    (build_options (answering text_response) [WithRequestJSONInterceptor keep_json])
    (init_world empty_sink)
    = (inr (BufferReader (list_byte_of_string "{}" ++ [x0a]),
            "application/json; charset=utf-8"),
       {| sink_header := ∅; trace := [EvReqBodyDecode; EvReqBodyClose] |}).
Proof.
  split; [reflexivity|]. split; [reflexivity|].
  destruct (C6_raw_encoder json_request (build_options (answering text_response) [])
              (init_world empty_sink)) as [Hplain _].
  destruct (C6_raw_encoder json_request
              (build_options (answering text_response)
                 [WithRequestJSONInterceptor keep_json])
              (init_world empty_sink)) as [_ Hjson].
  split.
  - exact (proj1 (Hplain eq_refl)).
  - exact (Hjson keep_json eq_refl).
Defined.

(** C7, at an upload larger than the configured maximum: nothing in the
    encoder compares the body with MaxUploadSize; the value only goes to
    the parser as its argument, which net/http reads as the amount of
    memory to use.  The 64-byte upload passes with a maximum of 16 and its
    file is sent upstream. *)
Theorem C7_oversized_upload_is_forwarded :
  MaxUploadSize (build_options (answering text_response) [WithMaxUploadSize 16]) = 16%Z ∧
  length (req_Body upload_request) = 64 ∧
  ∃ w,
    ProxyAPI (answering text_response) EmptyString EmptyString upload_request
      empty_sink "MULTIPART_FORM" [WithMaxUploadSize 16] = (None, w) ∧
    sent_bodies (trace w)
      = [MultipartBuffer
           {| mw_boundary := "b0undary";
              mw_parts := [FilePart "file" "a.bin" (list_byte_of_string "hello")];
              mw_closed := true |}].
Proof. split; [reflexivity|]. split; [reflexivity|]. eexists. split; reflexivity. Qed.

(** C8, at an upload whose copy fails: the encoder returns the copy's error
    with the file handle opened and never closed. *)
Theorem C8_failed_copy_leaves_handle_open :
  ∃ w,
    ProxyAPI (answering text_response) EmptyString EmptyString
      unreadable_upload_request empty_sink "MULTIPART_FORM" []
      = (Some (Err "read error"), w) ∧
    trace w = [EvFileOpen "file" "a.bin"] ∧
    open_handles (trace w) [] = [("file", "a.bin")].
Proof. eexists. split; [reflexivity|]. split; reflexivity. Qed.

Lemma C9_errors_abort_the_call_witness :
  reqParseFunc "FORM" bad_form_request (build_options unreachable [])
    (init_world empty_sink)
    = (inl (Err "invalid URL escape"), init_world empty_sink) ∧
  reqParseFunc EmptyString orders_request (build_options unreachable [])
    (init_world empty_sink)
    = (inr (NilReader, EmptyString), init_world empty_sink) ∧
  DoAPIRequest unreachable
    (outbound_request EmptyString EmptyString orders_request
       (build_options unreachable []) (NilReader, EmptyString))
    = inl (Err "connection refused") ∧
  (∃ w, ProxyAPI unreachable EmptyString EmptyString bad_form_request empty_sink
          "FORM" [] = (Some (Err "invalid URL escape"), w) ∧
        sink_header w = ∅ ∧ sink_trace w = [] ∧
        List.filter is_send_event (trace w) = []) ∧
  (∃ w, ProxyAPI unreachable EmptyString EmptyString orders_request empty_sink
          EmptyString [] = (Some (Err "connection refused"), w) ∧
        sink_header w = ∅ ∧ sink_trace w = [] ∧
        length (List.filter is_send_event (trace w)) = 1).
Proof.
  repeat (split; [reflexivity|]).
  destruct (C9_errors_abort_the_call unreachable EmptyString EmptyString
              bad_form_request empty_sink "FORM" []) as [Henc _].
  destruct (C9_errors_abort_the_call unreachable EmptyString EmptyString
              orders_request empty_sink EmptyString []) as [_ Hsend].
  split.
  - exact (Henc _ _ eq_refl).
  - destruct (Hsend (NilReader, EmptyString) (init_world empty_sink)
                (Err "connection refused") eq_refl eq_refl)
      as (w & Hcall & Hh & Hsink & Hone).
    exists w. split; [exact Hcall|]. split; [exact Hh|]. split; [exact Hsink|].
    by rewrite Hone.
Defined.

Lemma C10_form_body_from_PostForm_witness :
  req_ParseForm form_request = None ∧
  req_ParseForm form_request_other_query = req_ParseForm form_request ∧
  req_PostForm form_request_other_query = req_PostForm form_request ∧
  req_Header form_request_other_query = req_Header form_request ∧
  rebuild_form (range (req_PostForm form_request)) !! "a" = Some ["1"; "2"] ∧
  rebuild_form (range (req_PostForm form_request)) !! "q" = None ∧
  (∃ contentType,
     parseFormRequest form_request (build_options unreachable [])
       (init_world empty_sink)
     = (inr (StringReader
               (Values_Encode (rebuild_form (range (req_PostForm form_request)))),
             contentType), init_world empty_sink)) ∧
  parseFormRequest form_request_other_query (build_options unreachable [])
    (init_world empty_sink)
  = parseFormRequest form_request (build_options unreachable [])
      (init_world empty_sink).
Proof.
  do 4 (split; [reflexivity|]).
  destruct (C10_form_body_from_PostForm form_request (build_options unreachable [])
              (init_world empty_sink)) as (Hlookup & Hbody & Hquery).
  split; [exact (Hlookup "a")|]. split; [exact (Hlookup "q")|].
  split; [exact (Hbody eq_refl)|].
  exact (Hquery form_request_other_query eq_refl eq_refl eq_refl).
Defined.

End Instances.

(** * More of the forwarding call *)

Section MoreFacts.
Context `{rt : GoRuntime}.

(** Events of one kind are not of the other. *)
Ltac other_kind := let e := fresh "e" in intros e; destruct e; cbn; congruence.

Lemma sent_requests_app (a b : list Event) :
  sent_requests (a ++ b) = sent_requests a ++ sent_requests b.
Proof. unfold sent_requests. apply flat_map_app. Qed.

Lemma sent_requests_none (kind : Event → bool) (l : list Event) :
  Forall (λ e, kind e = true) l →
  (∀ e, kind e = true → is_send_event e = false) →
  sent_requests l = [].
Proof.
  intros Hl Hk. unfold sent_requests. induction Hl as [|e l He _ IH]; [done|].
  cbn [flat_map]. rewrite IH. specialize (Hk _ He). by destruct e.
Qed.

Lemma ProxyAPI_encoder_failure c method path httpReq writer requestType opts e w0 :
  reqParseFunc requestType httpReq (build_options c opts) (init_world writer)
    = (inl e, w0) →
  ProxyAPI c method path httpReq writer requestType opts = (Some e, w0).
Proof.
  intros Henc. unfold ProxyAPI, ProxyAPI_M, run, bind at 1. by rewrite Henc.
Qed.

Lemma ProxyAPI_send_failure c method path httpReq writer requestType opts
    parsed w0 e :
  reqParseFunc requestType httpReq (build_options c opts) (init_world writer)
    = (inr parsed, w0) →
  DoAPIRequest c (outbound_request method path httpReq (build_options c opts) parsed)
    = inl e →
  ProxyAPI c method path httpReq writer requestType opts =
  (Some e,
   {| sink_header := sink_header w0;
      trace := trace w0 ++
        [EvDoAPIRequest
           (outbound_request method path httpReq (build_options c opts) parsed)] |}).
Proof.
  intros Henc Hsend. unfold ProxyAPI, ProxyAPI_M, run, bind at 1. rewrite Henc.
  unfold bind at 1. cbn [emit]. unfold bind at 1. by rewrite Hsend.
Qed.

(** The whole trace of a call the client answered. *)
Lemma ProxyAPI_response_trace c method path httpReq writer requestType opts
    parsed w0 res :
  reqParseFunc requestType httpReq (build_options c opts) (init_world writer)
    = (inr parsed, w0) →
  DoAPIRequest c (outbound_request method path httpReq (build_options c opts) parsed)
    = inr res →
  ∃ sink_evs,
    trace (ProxyAPI c method path httpReq writer requestType opts).2
      = trace w0
        ++ [EvDoAPIRequest
              (outbound_request method path httpReq (build_options c opts) parsed)]
        ++ sink_evs ++ [EvResBodyClose] ∧
    Forall (λ e, is_sink_event e = true) sink_evs ∧
    List.filter is_status_write sink_evs = [EvWriteHeader (res_StatusCode res)].
Proof.
  intros Henc Hsend.
  rewrite (ProxyAPI_response_phase _ _ _ _ _ _ _ _ _ _ Henc Hsend).
  destruct (render (build_options c opts) res writer
              {| sink_header := rw_Header writer;
                 trace := trace w0 ++
                   [EvDoAPIRequest
                      (outbound_request method path httpReq
                         (build_options c opts) parsed)] |})
    as [rr w'] eqn:Hrender.
  erewrite run_defer_close by exact Hrender. cbn [snd trace].
  destruct (render_shape _ _ _ _ _ _ Hrender)
    as (sets & body_evs & _ & Ht & _ & Hcases).
  cbn [trace] in Ht.
  exists (transfer_events (TransferResponseHeaders (build_options c opts))
            (range (res_Header res))
          ++ EvWriteHeader (res_StatusCode res) :: set_events sets ++ body_evs).
  split; [|split].
  - rewrite Ht. by rewrite <- !app_assoc.
  - apply Forall_app. split.
    { eapply Forall_impl; [apply transfer_events_adds|]. other_kind. }
    constructor; [done|]. apply Forall_app. split.
    { eapply Forall_impl; [apply set_events_sets|]. other_kind. }
    destruct Hcases as [(_ & -> & _)|[(buf & _ & _ & -> & _)|(_ & _ & -> & _)]];
      by repeat constructor.
  - rewrite List.filter_app. cbn [List.filter is_status_write].
    rewrite List.filter_app.
    rewrite (filter_none is_header_add is_status_write (transfer_events _ _)
               (transfer_events_adds _ _)) by other_kind.
    rewrite (filter_none is_header_set is_status_write (set_events _)
               (set_events_sets _)) by other_kind.
    destruct Hcases as [(_ & -> & _)|[(buf & _ & _ & -> & _)|(_ & _ & -> & _)]];
      done.
Qed.

Lemma ProxyAPI_sends_once_aux c method path httpReq writer requestType opts :
  sent_requests (trace (ProxyAPI c method path httpReq writer requestType opts).2)
  = match (reqParseFunc requestType httpReq (build_options c opts)
             (init_world writer)).1 with
    | inr parsed =>
        [outbound_request method path httpReq (build_options c opts) parsed]
    | inl _ => []
    end.
Proof.
  destruct (reqParseFunc requestType httpReq (build_options c opts)
              (init_world writer)) as [[e|parsed] w0] eqn:Henc; cbn [fst].
  - rewrite (ProxyAPI_encoder_failure _ _ _ _ _ _ _ _ _ Henc). cbn [snd].
    destruct (reqParseFunc_quiet _ _ _ _ _ _ Henc) as [_ Hev].
    apply (sent_requests_none is_encoder_event); [done|other_kind].
  - destruct (reqParseFunc_quiet _ _ _ _ _ _ Henc) as [_ Hev].
    assert (sent_requests (trace w0) = []) as Hw0
      by (apply (sent_requests_none is_encoder_event); [done|other_kind]).
    destruct (DoAPIRequest c
                (outbound_request method path httpReq (build_options c opts) parsed))
      as [e|res] eqn:Hsend.
    + rewrite (ProxyAPI_send_failure _ _ _ _ _ _ _ _ _ _ Henc Hsend).
      cbn [snd trace]. by rewrite sent_requests_app, Hw0.
    + destruct (ProxyAPI_response_trace _ _ _ _ _ _ _ _ _ _ Henc Hsend)
        as (sink_evs & -> & Hsink & _).
      rewrite !sent_requests_app, Hw0.
      rewrite (sent_requests_none is_sink_event sink_evs) by (done || other_kind).
      done.
Qed.

(** X1: a call sends at most one request: none when the encoder fails, and
    otherwise exactly the request built from the resolved method and path
    and from what the encoder returned, whether the client answers or not
    and however the rendering ends. *)
Theorem ProxyAPI_sends_once c method path httpReq writer requestType opts :
  sent_requests (trace (ProxyAPI c method path httpReq writer requestType opts).2)
  = match (reqParseFunc requestType httpReq (build_options c opts)
             (init_world writer)).1 with
    | inr parsed =>
        [outbound_request method path httpReq (build_options c opts) parsed]
    | inl _ => []
    end.
Proof. apply ProxyAPI_sends_once_aux. Qed.

(** X2: the response body is closed exactly once in a call the client
    answered, whatever the rendering returns, and no close is attempted
    when the encoder or the send failed. *)
Theorem ProxyAPI_closes_response_body c method path httpReq writer requestType opts :
  List.filter is_res_close
    (trace (ProxyAPI c method path httpReq writer requestType opts).2)
  = match (reqParseFunc requestType httpReq (build_options c opts)
             (init_world writer)).1 with
    | inr parsed =>
        match DoAPIRequest c
                (outbound_request method path httpReq (build_options c opts) parsed)
        with
        | inr _ => [EvResBodyClose]
        | inl _ => []
        end
    | inl _ => []
    end.
Proof.
  destruct (reqParseFunc requestType httpReq (build_options c opts)
              (init_world writer)) as [[e|parsed] w0] eqn:Henc; cbn [fst].
  - rewrite (ProxyAPI_encoder_failure _ _ _ _ _ _ _ _ _ Henc). cbn [snd].
    destruct (reqParseFunc_quiet _ _ _ _ _ _ Henc) as [_ Hev].
    apply (filter_none is_encoder_event); [done|other_kind].
  - destruct (reqParseFunc_quiet _ _ _ _ _ _ Henc) as [_ Hev].
    assert (List.filter is_res_close (trace w0) = []) as Hw0
      by (apply (filter_none is_encoder_event); [done|other_kind]).
    destruct (DoAPIRequest c
                (outbound_request method path httpReq (build_options c opts) parsed))
      as [e|res] eqn:Hsend.
    + rewrite (ProxyAPI_send_failure _ _ _ _ _ _ _ _ _ _ Henc Hsend).
      cbn [snd trace]. by rewrite List.filter_app, Hw0.
    + destruct (ProxyAPI_response_trace _ _ _ _ _ _ _ _ _ _ Henc Hsend)
        as (sink_evs & -> & Hsink & _).
      rewrite !List.filter_app, Hw0.
      rewrite (filter_none is_sink_event is_res_close sink_evs) by (done || other_kind).
      done.
Qed.

(** X3: in a call the client answered, the trace is made of the encoder's
    calls on the inbound body and the uploads, then the one send, then calls
    on the sink only, then the close of the response body: nothing reaches
    the sink before the client has answered, and the encoder is finished
    before anything is sent. *)
Theorem ProxyAPI_call_order c method path httpReq writer requestType opts
    parsed w0 res :
  reqParseFunc requestType httpReq (build_options c opts) (init_world writer)
    = (inr parsed, w0) →
  DoAPIRequest c (outbound_request method path httpReq (build_options c opts) parsed)
    = inr res →
  ∃ sink_evs,
    trace (ProxyAPI c method path httpReq writer requestType opts).2
      = trace w0
        ++ [EvDoAPIRequest
              (outbound_request method path httpReq (build_options c opts) parsed)]
        ++ sink_evs ++ [EvResBodyClose] ∧
    Forall (λ e, is_encoder_event e = true) (trace w0) ∧
    Forall (λ e, is_sink_event e = true) sink_evs ∧
    List.filter is_status_write sink_evs = [EvWriteHeader (res_StatusCode res)].
Proof.
  intros Henc Hsend.
  destruct (reqParseFunc_quiet _ _ _ _ _ _ Henc) as [_ Hev].
  destruct (ProxyAPI_response_trace _ _ _ _ _ _ _ _ _ _ Henc Hsend)
    as (sink_evs & Ht & Hsink & Hstatus).
  exists sink_evs. by repeat split.
Qed.

(** X4: a request type other than RAW, FORM and MULTIPART_FORM (the
    comparison is exact, so a lower-case spelling counts as unknown) selects
    the encoder that returns a nil body and an empty content type: the one
    request sent has no body, and the call makes no call at all on the
    inbound body or on an upload. *)
Theorem ProxyAPI_unknown_request_type c method path httpReq writer requestType opts :
  requestType ≠ "RAW" →
  requestType ≠ "FORM" →
  requestType ≠ "MULTIPART_FORM" →
  sent_requests (trace (ProxyAPI c method path httpReq writer requestType opts).2)
    = [outbound_request method path httpReq (build_options c opts)
         (NilReader, EmptyString)] ∧
  List.filter is_encoder_event
    (trace (ProxyAPI c method path httpReq writer requestType opts).2) = [].
Proof.
  intros H1 H2 H3.
  assert (reqParseFunc requestType httpReq (build_options c opts) (init_world writer)
          = (inr (NilReader, EmptyString), init_world writer)) as Henc.
  { unfold reqParseFunc. by rewrite !decide_False. }
  split.
  - by rewrite ProxyAPI_sends_once_aux, Henc.
  - destruct (DoAPIRequest c
                (outbound_request method path httpReq (build_options c opts)
                   (NilReader, EmptyString))) as [e|res] eqn:Hsend.
    + by rewrite (ProxyAPI_send_failure _ _ _ _ _ _ _ _ _ _ Henc Hsend).
    + destruct (ProxyAPI_response_trace _ _ _ _ _ _ _ _ _ _ Henc Hsend)
        as (sink_evs & -> & Hsink & _).
      cbn [init_world trace app]. cbn [List.filter is_encoder_event].
      rewrite List.filter_app.
      by rewrite (filter_none is_sink_event is_encoder_event sink_evs) by (done || other_kind).
Qed.

(** ** The headers of the outbound request *)

Lemma seed_loop_transferred hs (l : list (string * list string)) (r : Header) :
  Forall (λ kvv, allowed hs kvv.1 = true) l →
  fold_left (λ r kvv, fold_left (λ r v, Header_Add kvv.1 v r) kvv.2 r) l r
  = transferred hs l r.
Proof.
  unfold transferred, add_all_headers. intros Hl. revert r.
  induction Hl as [|[k vv] l Hk _ IH]; intros r; [done|].
  cbn [fold_left fst snd] in *. by rewrite Hk, IH.
Qed.

(** X5: the interceptor installed on the outbound request appends, for
    every inbound header (names canonical, as net/http delivers them), all
    its values in order to what the outbound request holds under that name,
    and then, when the encoder returned a content type, replaces
    Content-Type by that single value; with an empty content type (unknown
    request type) the inbound Content-Type is forwarded as it is. *)
Theorem seed_headers_lookup httpReq reqContentType (r : Header) K :
  map_Forall (λ k _, CanonicalMIMEHeaderKey k = k) (req_Header httpReq) →
  seed_headers httpReq reqContentType r !! K =
  if decide (reqContentType ≠ EmptyString ∧ K = "Content-Type")
  then Some [reqContentType]
  else match req_Header httpReq !! K with
       | Some (v :: vs) => Some (default [] (r !! K) ++ v :: vs)
       | _ => r !! K
       end.
Proof.
  intros Hcan. unfold seed_headers.
  rewrite (seed_loop_transferred (range (req_Header httpReq)).*1).
  2:{ rewrite Forall_forall. intros [k vv] Hin. unfold allowed.
      apply bool_decide_eq_true_2. apply list_elem_of_fmap. by exists (k, vv). }
  assert (transferred (range (req_Header httpReq)).*1 (range (req_Header httpReq)) r !! K
          = match req_Header httpReq !! K with
            | Some (v :: vs) => Some (default [] (r !! K) ++ v :: vs)
            | _ => r !! K
            end) as Hloop.
  { rewrite transferred_range by done.
    destruct (req_Header httpReq !! K) as [[|v vs]|] eqn:HK; try done.
    unfold allowed. rewrite bool_decide_eq_true_2; [done|].
    apply list_elem_of_fmap. exists (K, v :: vs). split; [done|].
    by apply range_elem_of. }
  destruct (decide (reqContentType = EmptyString)) as [->|Hct].
  - rewrite decide_False by (by intros [? _]). exact Hloop.
  - rewrite Header_Set_lookup, canon_Content_Type.
    destruct (decide ("Content-Type" = K)) as [<-|HK].
    + by rewrite decide_True.
    + rewrite decide_False by (intros [_ ->]; done). exact Hloop.
Qed.

(** ** The allow-list is matched as it is written *)

Lemma transfer_nothing hs (l : list (string * list string)) (h : Header) :
  Forall (λ kvv, allowed hs kvv.1 = false) l →
  transferred hs l h = h ∧ transfer_events hs l = [].
Proof.
  unfold transferred, transfer_events. intros Hl. revert h.
  induction Hl as [|[k vv] l Hk _ IH]; intros h; [done|].
  cbn [fold_left flat_map fst snd] in *. rewrite Hk. cbn [app]. apply IH.
Qed.

(** X8: allow-list entries are compared with the upstream header names byte
    for byte; upstream names being canonical, an entry that is not in
    canonical form (content-type, x-request-id) matches nothing: when no
    entry is canonical the transfer makes no call on the sink and leaves
    its header map as it was. *)
Theorem non_canonical_allow_list_transfers_nothing opt res writer :
  map_Forall (λ k _, CanonicalMIMEHeaderKey k = k) (res_Header res) →
  Forall (λ a, CanonicalMIMEHeaderKey a ≠ a) (TransferResponseHeaders opt) →
  header_after_transfer opt res writer = rw_Header writer ∧
  transfer_events (TransferResponseHeaders opt) (range (res_Header res)) = [] ∧
  ∀ w, transfer_headers res opt w = (inr tt, w).
Proof.
  intros Hcan Hallow.
  assert (Forall (λ kvv : string * list string,
                    allowed (TransferResponseHeaders opt) kvv.1 = false)
            (range (res_Header res))) as Hnone.
  { rewrite Forall_forall. intros [k vv] Hin. cbn [fst].
    apply range_elem_of in Hin. unfold allowed. apply bool_decide_eq_false_2.
    intros Hk. rewrite Forall_forall in Hallow. apply (Hallow _ Hk).
    by eapply Hcan. }
  destruct (transfer_nothing _ _ (rw_Header writer) Hnone) as [Hh Hev].
  split; [exact Hh|]. split; [exact Hev|].
  intros [h t]. rewrite transfer_headers_run. cbn [sink_header trace].
  destruct (transfer_nothing _ _ h Hnone) as [-> ->]. by rewrite app_nil_r.
Qed.

(** ** The JSON path, whatever the encoding *)

Lemma render_json_rewrite opt res writer interceptor (ws : World) :
  ResponseJSONInterceptor opt = Some interceptor →
  render opt res writer ws =
  match json_rewrite interceptor res with
  | inl e =>
      (inl e,
       {| sink_header :=
            transferred (TransferResponseHeaders opt) (range (res_Header res))
                        (sink_header ws);
          trace := trace ws
            ++ transfer_events (TransferResponseHeaders opt) (range (res_Header res))
            ++ [EvWriteHeader (res_StatusCode res)] |})
  | inr buf =>
      (match rw_Write writer buf with Some e => inl e | None => inr tt end,
       {| sink_header :=
            apply_sets (json_sets buf)
              (transferred (TransferResponseHeaders opt) (range (res_Header res))
                           (sink_header ws));
          trace := (trace ws
            ++ transfer_events (TransferResponseHeaders opt) (range (res_Header res))
            ++ [EvWriteHeader (res_StatusCode res)])
            ++ set_events (json_sets buf) ++ [EvWrite buf] |})
  end.
Proof.
  intros Hint. rewrite (render_json _ _ _ _ _ Hint). cbv zeta. unfold json_rewrite.
  destruct (if decide (Header_Get (res_Header res) "Content-Encoding" = "gzip")
            then gzip_NewReader (res_Body res) else inr (res_Body res))
    as [e|reader]; [done|].
  destruct (json_Decode reader) as [e|m]; [done|].
  by destruct (json_Encode (interceptor m)) as [e|buf].
Qed.

(** X6: with a response JSON interceptor, when inflating, decoding or
    re-encoding fails the call returns that error after the header transfer
    and the status write and nothing else: the renderer sets no header, no
    body is written, and the response body is still closed. *)
Theorem ProxyAPI_json_failure c method path httpReq writer requestType opts
    parsed w0 res interceptor e :
  ResponseJSONInterceptor (build_options c opts) = Some interceptor →
  reqParseFunc requestType httpReq (build_options c opts) (init_world writer)
    = (inr parsed, w0) →
  DoAPIRequest c (outbound_request method path httpReq (build_options c opts) parsed)
    = inr res →
  json_rewrite interceptor res = inl e →
  ∃ w,
    ProxyAPI c method path httpReq writer requestType opts = (Some e, w) ∧
    sink_header w = header_after_transfer (build_options c opts) res writer ∧
    sink_trace w
      = transfer_events (TransferResponseHeaders (build_options c opts))
          (range (res_Header res))
        ++ [EvWriteHeader (res_StatusCode res)] ∧
    last (trace w) = Some EvResBodyClose.
Proof.
  intros Hint Henc Hsend Hfail.
  destruct (reqParseFunc_quiet _ _ _ _ _ _ Henc) as [_ Hev].
  rewrite (ProxyAPI_response_phase _ _ _ _ _ _ _ _ _ _ Henc Hsend).
  pose proof (render_json_rewrite _ res writer interceptor
                {| sink_header := rw_Header writer;
                   trace := trace w0 ++
                     [EvDoAPIRequest
                        (outbound_request method path httpReq
                           (build_options c opts) parsed)] |} Hint) as Hr.
  rewrite Hfail in Hr. erewrite run_defer_close by exact Hr. clear Hr.
  eexists. split; [reflexivity|]. cbn [sink_header trace]. split; [done|]. split.
  - unfold sink_trace. cbn [trace]. rewrite !List.filter_app.
    cbn [List.filter is_sink_event].
    rewrite (filter_none is_encoder_event is_sink_event (trace w0) Hev) by other_kind.
    rewrite (filter_all is_sink_event (transfer_events _ _)).
    2:{ eapply Forall_impl; [apply transfer_events_adds|]. other_kind. }
    cbn [app]. by rewrite app_nil_r.
  - apply last_snoc.
Qed.


(** ** The multipart encoder *)

Lemma mw_add_all_nil mw : mw_add_all [] mw = mw.
Proof. destruct mw. unfold mw_add_all. cbn. by rewrite app_nil_r. Qed.

Lemma mw_add_all_app ps qs mw :
  mw_add_all qs (mw_add_all ps mw) = mw_add_all (ps ++ qs) mw.
Proof. unfold mw_add_all. cbn. by rewrite app_assoc. Qed.

Lemma mw_add_one p mw : mw_add p mw = mw_add_all [p] mw.
Proof. done. Qed.

(** Writing the values of one field: no call on the world; on success the
    field's parts are appended in order. *)
Lemma write_values_run k vv mw (w : World) r w' :
  foldM (λ mw v, WriteField k v mw) vv mw w = (r, w') →
  w' = w ∧ ∀ mw', r = inr mw' → mw' = mw_add_all (map (FieldPart k) vv) mw.
Proof.
  revert mw. induction vv as [|v vv IH]; intros mw; cbn [foldM].
  - intros [= <- <-]. split; [done|]. intros mw' [= <-]. by rewrite mw_add_all_nil.
  - unfold bind at 1, WriteField, bind at 1, check.
    destruct (WriteField_err k v) as [e|]; cbn.
    + intros [= <- <-]. split; [done|]. by intros mw' [=].
    + intros H. destruct (IH _ H) as [-> Hmw]. split; [done|].
      intros mw' Hr. rewrite (Hmw _ Hr), mw_add_one, mw_add_all_app. done.
Qed.

Lemma write_fields_run l mw (w : World) r w' :
  write_fields l mw w = (r, w') →
  w' = w ∧ ∀ mw', r = inr mw' → mw' = mw_add_all (field_parts l) mw.
Proof.
  unfold write_fields, field_parts. revert mw.
  induction l as [|[k vv] l IH]; intros mw; cbn [foldM flat_map fst snd].
  - intros [= <- <-]. split; [done|]. intros mw' [= <-]. by rewrite mw_add_all_nil.
  - unfold bind at 1.
    destruct (foldM (λ mw v, WriteField k v mw) vv mw w) as [[e|mw1] w1] eqn:Hin.
    + intros [= <- <-]. destruct (write_values_run _ _ _ _ _ _ Hin) as [-> _].
      split; [done|]. by intros mw' [=].
    + destruct (write_values_run _ _ _ _ _ _ Hin) as [-> Hmw1].
      intros H. destruct (IH _ H) as [-> Hmw]. split; [done|].
      intros mw' Hr. rewrite (Hmw _ Hr), (Hmw1 _ eq_refl), mw_add_all_app. done.
Qed.

(** Copying the uploads of one field, when every copy succeeds. *)
Lemma copy_values_ok k vv mw (w : World) mw' w' :
  foldM (copy_file k) vv mw w = (inr mw', w') →
  mw' = mw_add_all (flat_map (file_part k) vv) mw ∧
  sink_header w' = sink_header w ∧
  trace w' = trace w
    ++ flat_map (λ v, [EvFileOpen k (Filename v); EvFileClose k (Filename v)]) vv.
Proof.
  revert mw w. induction vv as [|v vv IH]; intros mw w; cbn [foldM flat_map].
  - intros [= <- <-]. by rewrite mw_add_all_nil, app_nil_r.
  - unfold bind at 1. rewrite copy_file_exits. unfold file_part at 1.
    destruct (fh_Open v) as [e|f]; [done|].
    destruct (CreateFormFile_err k (Filename v)); [done|].
    destruct (f_Copy_err f); [done|].
    intros H. destruct (IH _ _ H) as (-> & Hh & Ht). cbn [sink_header trace] in *.
    rewrite mw_add_one, mw_add_all_app. split; [done|]. split; [done|].
    rewrite Ht. by rewrite <- app_assoc.
Qed.

Lemma copy_files_ok l mw (w : World) mw' w' :
  copy_files l mw w = (inr mw', w') →
  mw' = mw_add_all (file_parts l) mw ∧
  sink_header w' = sink_header w ∧
  trace w' = trace w ++ file_events l.
Proof.
  unfold copy_files, file_parts, file_events. revert mw w.
  induction l as [|[k vv] l IH]; intros mw w; cbn [foldM flat_map fst snd].
  - intros [= <- <-]. by rewrite mw_add_all_nil, app_nil_r.
  - unfold bind at 1.
    destruct (foldM (copy_file k) vv mw w) as [[e|mw1] w1] eqn:Hin; [done|].
    destruct (copy_values_ok _ _ _ _ _ _ Hin) as (-> & Hh1 & Ht1).
    intros H. destruct (IH _ _ H) as (-> & Hh & Ht).
    rewrite mw_add_all_app. split; [done|]. split; [congruence|].
    rewrite Ht, Ht1. by rewrite <- app_assoc.
Qed.

(** X9: whenever the multipart encoder succeeds, the body it returns is the
    buffer of the closed writer holding, in visiting order, one field part
    for every value of every parsed field and then one file part, with its
    field name, filename and content, for every upload; the interceptor, if
    any, got the writer after all of them and before the close; the content
    type is the one of that writer; every upload was opened and closed in
    turn and nothing else was done. *)
Theorem parseMultipartFormRequest_success req opt (w : World) reader contentType w' :
  parseMultipartFormRequest req opt w = (inr (reader, contentType), w') →
  let written :=
    mw_add_all (field_parts (range (Value (req_MultipartForm req)))
                ++ file_parts (range (File (req_MultipartForm req))))
               multipart_NewWriter in
  reader = MultipartBuffer (mw_Close (intercept_multipart opt written)) ∧
  contentType = FormDataContentType (intercept_multipart opt written) ∧
  sink_header w' = sink_header w ∧
  trace w' = trace w ++ file_events (range (File (req_MultipartForm req))).
Proof.
  unfold parseMultipartFormRequest, bind at 1, check.
  destruct (req_ParseMultipartForm req (MaxUploadSize opt)); [done|]. cbn [ret].
  unfold bind at 1.
  destruct (write_fields (range (Value (req_MultipartForm req)))
              multipart_NewWriter w) as [[e|mw1] w1] eqn:Hfields; [done|].
  destruct (write_fields_run _ _ _ _ _ Hfields) as [-> Hmw1].
  rewrite (Hmw1 _ eq_refl). unfold bind at 1.
  destruct (copy_files (range (File (req_MultipartForm req))) _ w)
    as [[e|mw2] w2] eqn:Hfiles; [done|].
  destruct (copy_files_ok _ _ _ _ _ Hfiles) as (-> & Hh & Ht).
  rewrite mw_add_all_app. unfold ret, intercept_multipart.
  intros [= <- <- <-]. done.
Qed.

(** ** Upload handles *)

Lemma open_handles_app (t1 t2 : list Event) opened :
  open_handles (t1 ++ t2) opened = open_handles t2 (open_handles t1 opened).
Proof.
  revert opened. induction t1 as [|e t1 IH]; intros opened; [done|].
  destruct e; cbn [app open_handles]; apply IH.
Qed.

Lemma copy_values_handles k vv mw (w : World) r w' :
  open_handles (trace w) [] = [] →
  foldM (copy_file k) vv mw w = (r, w') →
  (length (open_handles (trace w') []) ≤ 1)%nat ∧
  (∀ mw', r = inr mw' → open_handles (trace w') [] = []).
Proof.
  revert mw w. induction vv as [|v vv IH]; intros mw w Hw; cbn [foldM].
  - intros [= <- <-]. rewrite Hw. split; [cbn; lia|done].
  - unfold bind at 1. rewrite copy_file_exits.
    destruct (fh_Open v) as [e|f].
    { intros [= <- <-]. rewrite Hw. split; [cbn; lia|by intros ? [=]]. }
    destruct (CreateFormFile_err k (Filename v)).
    { intros [= <- <-]. cbn [trace]. rewrite open_handles_app, Hw.
      split; [cbn; lia|by intros ? [=]]. }
    destruct (f_Copy_err f).
    { intros [= <- <-]. cbn [trace]. rewrite open_handles_app, Hw.
      split; [cbn; lia|by intros ? [=]]. }
    apply IH. cbn [trace]. rewrite open_handles_app, Hw.
    cbn. by rewrite bool_decide_eq_true_2.
Qed.

Lemma copy_files_handles l mw (w : World) r w' :
  open_handles (trace w) [] = [] →
  copy_files l mw w = (r, w') →
  (length (open_handles (trace w') []) ≤ 1)%nat ∧
  (∀ mw', r = inr mw' → open_handles (trace w') [] = []).
Proof.
  unfold copy_files. revert mw w.
  induction l as [|[k vv] l IH]; intros mw w Hw; cbn [foldM fst snd].
  - intros [= <- <-]. rewrite Hw. split; [cbn; lia|done].
  - unfold bind at 1.
    destruct (foldM (copy_file k) vv mw w) as [[e|mw1] w1] eqn:Hin.
    + intros [= <- <-]. destruct (copy_values_handles _ _ _ _ _ _ Hw Hin) as [Hle _].
      split; [exact Hle|by intros ? [=]].
    + destruct (copy_values_handles _ _ _ _ _ _ Hw Hin) as [_ Hnone].
      apply IH. by eapply Hnone.
Qed.

(** X10: when the multipart encoder returns, at most one upload handle is
    open (the one whose part creation or copy failed), and none when it
    returns without error: every upload copied before was closed before
    the next one was opened. *)
Theorem parseMultipartFormRequest_handles req opt (w : World) r w' :
  open_handles (trace w) [] = [] →
  parseMultipartFormRequest req opt w = (r, w') →
  (length (open_handles (trace w') []) ≤ 1)%nat ∧
  (∀ x, r = inr x → open_handles (trace w') [] = []).
Proof.
  intros Hw. unfold parseMultipartFormRequest, bind at 1, check.
  destruct (req_ParseMultipartForm req (MaxUploadSize opt)).
  { intros [= <- <-]. rewrite Hw. split; [cbn; lia|by intros ? [=]]. }
  cbn [ret]. unfold bind at 1.
  destruct (write_fields (range (Value (req_MultipartForm req)))
              multipart_NewWriter w) as [[e|mw1] w1] eqn:Hfields.
  { destruct (write_fields_run _ _ _ _ _ Hfields) as [-> _].
    intros [= <- <-]. rewrite Hw. split; [cbn; lia|by intros ? [=]]. }
  destruct (write_fields_run _ _ _ _ _ Hfields) as [-> _].
  unfold bind at 1.
  destruct (copy_files (range (File (req_MultipartForm req))) mw1 w)
    as [[e|mw2] w2] eqn:Hfiles.
  - destruct (copy_files_handles _ _ _ _ _ Hw Hfiles) as [Hle _].
    intros [= <- <-]. split; [exact Hle|by intros ? [=]].
  - destruct (copy_files_handles _ _ _ _ _ Hw Hfiles) as [Hle Hnone].
    unfold ret. intros [= <- <-]. split; [exact Hle|]. intros _ _. by eapply Hnone.
Qed.

Lemma write_values_ok_inv k vv mw (w : World) mw' w' :
  foldM (λ mw v, WriteField k v mw) vv mw w = (inr mw', w') →
  Forall (λ v, WriteField_err k v = None) vv.
Proof.
  revert mw. induction vv as [|v vv IH]; intros mw; cbn [foldM]; [by constructor|].
  unfold bind at 1, WriteField, bind at 1, check.
  destruct (WriteField_err k v) as [e|] eqn:Hv; cbn; [done|].
  intros H. constructor; [done|]. by eapply IH.
Qed.

Lemma write_fields_ok_inv l mw (w : World) mw' w' :
  write_fields l mw w = (inr mw', w') →
  Forall (λ kvv, Forall (λ v, WriteField_err kvv.1 v = None) kvv.2) l.
Proof.
  unfold write_fields. revert mw.
  induction l as [|[k vv] l IH]; intros mw; cbn [foldM fst snd]; [by constructor|].
  unfold bind at 1.
  destruct (foldM (λ mw v, WriteField k v mw) vv mw w) as [[e|mw1] w1] eqn:Hin; [done|].
  destruct (write_values_run _ _ _ _ _ _ Hin) as [-> _].
  intros H. constructor; [by eapply write_values_ok_inv|]. by eapply IH.
Qed.

(** X11: the multipart encoder touches an upload only after the parse of
    the request succeeded and every field of the form was written: if the
    trace has grown when it returns, the parser returned no error and no
    field write failed. *)
Theorem parseMultipartFormRequest_fields_first req opt (w : World) r w' :
  parseMultipartFormRequest req opt w = (r, w') →
  trace w' ≠ trace w →
  req_ParseMultipartForm req (MaxUploadSize opt) = None ∧
  Forall (λ kvv, Forall (λ v, WriteField_err kvv.1 v = None) kvv.2)
         (range (Value (req_MultipartForm req))).
Proof.
  unfold parseMultipartFormRequest, bind at 1, check.
  destruct (req_ParseMultipartForm req (MaxUploadSize opt)).
  { by intros [= <- <-] Hne. }
  cbn [ret]. unfold bind at 1.
  destruct (write_fields (range (Value (req_MultipartForm req)))
              multipart_NewWriter w) as [[e|mw1] w1] eqn:Hfields.
  { destruct (write_fields_run _ _ _ _ _ Hfields) as [-> _].
    by intros [= <- <-] Hne. }
  intros _ _. split; [done|]. by eapply write_fields_ok_inv.
Qed.

(** ** The transparent entry points *)

(** X12: the transparent JSON entry point always sends exactly one
    request, with the inbound method, the string form of the inbound URL,
    the inbound body handed over unread, the client's timeout and no other
    interceptor than the header seeding with the inbound Content-Type (or
    application/octet-stream); whatever the transparent form and multipart
    entry points send carries the inbound method and URL too. *)
Theorem transparent_entry_points c httpReq writer :
  sent_requests (trace (TransparentProxyJSONAPI c httpReq writer).2)
    = [NewAPIRequest (req_Method httpReq) (inbound_URL_String httpReq)
         (BodyReader (req_Body httpReq))
         [WithRequestInterceptors
            (seed_headers httpReq
               (if decide (Header_Get (req_Header httpReq) "Content-Type" = EmptyString)
                then "application/octet-stream"
                else Header_Get (req_Header httpReq) "Content-Type"));
          WithRequestTimeout (Timeout c)]] ∧
  Forall (λ a, api_method a = req_Method httpReq ∧
               api_path a = inbound_URL_String httpReq)
    (sent_requests (trace (TransparentProxyFormAPI c httpReq writer).2)) ∧
  Forall (λ a, api_method a = req_Method httpReq ∧
               api_path a = inbound_URL_String httpReq)
    (sent_requests (trace (TransparentProxyMultipartFormAPI c httpReq writer).2)).
Proof.
  unfold TransparentProxyJSONAPI, ProxyJSONAPI, TransparentProxyFormAPI,
    TransparentProxyMultipartFormAPI.
  rewrite !ProxyAPI_sends_once_aux. split; [done|].
  split.
  - destruct (reqParseFunc ProxyRequestTypeForm httpReq (build_options c [])
                (init_world writer)).1; by repeat constructor.
  - destruct (reqParseFunc ProxyRequestTypeMultipartForm httpReq (build_options c [])
                (init_world writer)).1; by repeat constructor.
Qed.

End MoreFacts.

(** * These properties at concrete calls *)

Section MoreInstances.
#[local] Existing Instance sample_runtime.

Lemma ProxyAPI_call_order_witness :
  reqParseFunc EmptyString orders_request
    (build_options (answering text_response) []) (init_world empty_sink)
    = (inr (NilReader, EmptyString), init_world empty_sink) ∧
  DoAPIRequest (answering text_response)
    (outbound_request EmptyString EmptyString orders_request
       (build_options (answering text_response) []) (NilReader, EmptyString))
    = inr text_response ∧
  ∃ sink_evs,
    trace (ProxyAPI (answering text_response) EmptyString EmptyString
             orders_request empty_sink EmptyString []).2
      = trace (init_world empty_sink)
        ++ [EvDoAPIRequest
              (outbound_request EmptyString EmptyString orders_request
                 (build_options (answering text_response) [])
                 (NilReader, EmptyString))]
        ++ sink_evs ++ [EvResBodyClose] ∧
    Forall (λ e, is_sink_event e = true) sink_evs ∧
    List.filter is_status_write sink_evs = [EvWriteHeader 200].
Proof.
  split; [reflexivity|]. split; [reflexivity|].
  destruct (ProxyAPI_call_order (answering text_response) EmptyString EmptyString
              orders_request empty_sink EmptyString []
              (NilReader, EmptyString) (init_world empty_sink) text_response
              eq_refl eq_refl)
    as (sink_evs & Ht & _ & Hsink & Hstatus).
  exists sink_evs. split; [exact Ht|]. split; [exact Hsink|exact Hstatus].
Defined.

Lemma ProxyAPI_unknown_request_type_witness :
  "raw" ≠ "RAW" ∧ "raw" ≠ "FORM" ∧ "raw" ≠ "MULTIPART_FORM" ∧
  sent_requests
    (trace (ProxyAPI (answering text_response) EmptyString EmptyString
              json_request empty_sink "raw" []).2)
    = [outbound_request EmptyString EmptyString json_request
         (build_options (answering text_response) []) (NilReader, EmptyString)] ∧
  List.filter is_encoder_event
    (trace (ProxyAPI (answering text_response) EmptyString EmptyString
              json_request empty_sink "raw" []).2) = [].
Proof.
  assert ("raw" ≠ "RAW") as H1 by discriminate.
  assert ("raw" ≠ "FORM") as H2 by discriminate.
  assert ("raw" ≠ "MULTIPART_FORM") as H3 by discriminate.
  split; [exact H1|]. split; [exact H2|]. split; [exact H3|].
  exact (ProxyAPI_unknown_request_type (answering text_response) EmptyString
           EmptyString json_request empty_sink "raw" [] H1 H2 H3).
Defined.

Lemma seed_headers_lookup_witness :
  map_Forall (λ k _, CanonicalMIMEHeaderKey k = k) (req_Header orders_request) ∧
  seed_headers orders_request "application/json; charset=utf-8" ∅ !! "Accept"
    = Some ["*/*"] ∧
  seed_headers orders_request "application/json; charset=utf-8" ∅ !! "Content-Type"
    = Some ["application/json; charset=utf-8"].
Proof.
  assert (map_Forall (λ (k : string) (_ : list string), CanonicalMIMEHeaderKey k = k)
            (req_Header orders_request)) as Hcan.
  { unfold orders_request. cbn [req_Header].
    apply map_Forall_insert_2; [reflexivity|]. apply map_Forall_empty. }
  split; [exact Hcan|]. split.
  - exact (seed_headers_lookup orders_request "application/json; charset=utf-8"
             ∅ "Accept" Hcan).
  - exact (seed_headers_lookup orders_request "application/json; charset=utf-8"
             ∅ "Content-Type" Hcan).
Defined.

Lemma non_canonical_allow_list_transfers_nothing_witness :
  map_Forall (λ k _, CanonicalMIMEHeaderKey k = k) (res_Header text_response) ∧
  Forall (λ a, CanonicalMIMEHeaderKey a ≠ a)
    (TransferResponseHeaders
       (build_options (answering text_response)
          [WithTransferResponseHeaders ["set-cookie"]])) ∧
  header_after_transfer
    (build_options (answering text_response)
       [WithTransferResponseHeaders ["set-cookie"]]) text_response empty_sink
    = rw_Header empty_sink.
Proof.
  assert (map_Forall (λ (k : string) (_ : list string), CanonicalMIMEHeaderKey k = k)
            (res_Header text_response)) as Hcan.
  { unfold text_response. cbn [res_Header].
    repeat (apply map_Forall_insert_2; [reflexivity|]). apply map_Forall_empty. }
  assert (Forall (λ a, CanonicalMIMEHeaderKey a ≠ a)
            (TransferResponseHeaders
               (build_options (answering text_response)
                  [WithTransferResponseHeaders ["set-cookie"]]))) as Hallow.
  { constructor; [discriminate|constructor]. }
  split; [exact Hcan|]. split; [exact Hallow|].
  exact (proj1 (non_canonical_allow_list_transfers_nothing _ _ _ Hcan Hallow)).
Defined.

Lemma ProxyAPI_json_failure_witness :
  ResponseJSONInterceptor
    (build_options (answering empty_response) [WithResponseJSONInterceptor keep_json])
    = Some keep_json ∧
  reqParseFunc EmptyString orders_request
    (build_options (answering empty_response) [WithResponseJSONInterceptor keep_json])
    (init_world empty_sink)
    = (inr (NilReader, EmptyString), init_world empty_sink) ∧
  DoAPIRequest (answering empty_response)
    (outbound_request EmptyString EmptyString orders_request
       (build_options (answering empty_response)
          [WithResponseJSONInterceptor keep_json])
       (NilReader, EmptyString))
    = inr empty_response ∧
  json_rewrite keep_json empty_response = inl (Err "EOF") ∧
  ∃ w,
    ProxyAPI (answering empty_response) EmptyString EmptyString orders_request
      empty_sink EmptyString [WithResponseJSONInterceptor keep_json]
      = (Some (Err "EOF"), w) ∧
    sink_header w = ∅ ∧
    sink_trace w = [EvWriteHeader 204] ∧
    last (trace w) = Some EvResBodyClose.
Proof.
  repeat (split; [reflexivity|]).
  exact (ProxyAPI_json_failure (answering empty_response) EmptyString EmptyString
           orders_request empty_sink EmptyString
           [WithResponseJSONInterceptor keep_json]
           (NilReader, EmptyString) (init_world empty_sink) empty_response
           keep_json (Err "EOF") eq_refl eq_refl eq_refl eq_refl).
Defined.


Lemma parseMultipartFormRequest_success_witness :
  parseMultipartFormRequest upload_request (build_options unreachable [])
    (init_world empty_sink)
  = (inr (MultipartBuffer
            {| mw_boundary := "b0undary";
               mw_parts := [FilePart "file" "a.bin" (list_byte_of_string "hello")];
               mw_closed := true |},
          "multipart/form-data; boundary=b0undary"),
     {| sink_header := ∅;
        trace := [EvFileOpen "file" "a.bin"; EvFileClose "file" "a.bin"] |}) ∧
  trace {| sink_header := ∅;
           trace := [EvFileOpen "file" "a.bin"; EvFileClose "file" "a.bin"] |}
  = trace (init_world empty_sink)
    ++ file_events (range (File (req_MultipartForm upload_request))).
Proof.
  assert (parseMultipartFormRequest upload_request (build_options unreachable [])
            (init_world empty_sink)
          = (inr (MultipartBuffer
                    {| mw_boundary := "b0undary";
                       mw_parts := [FilePart "file" "a.bin"
                                      (list_byte_of_string "hello")];
                       mw_closed := true |},
                  "multipart/form-data; boundary=b0undary"),
             {| sink_header := ∅;
                trace := [EvFileOpen "file" "a.bin"; EvFileClose "file" "a.bin"] |}))
    as Hrun by reflexivity.
  split; [exact Hrun|].
  exact (proj2 (proj2 (proj2
           (parseMultipartFormRequest_success _ _ _ _ _ _ Hrun)))).
Defined.

Lemma parseMultipartFormRequest_handles_witness :
  open_handles (trace (init_world empty_sink)) [] = [] ∧
  (∃ r w',
     parseMultipartFormRequest unreadable_upload_request
       (build_options unreachable []) (init_world empty_sink) = (r, w') ∧
     (length (open_handles (trace w') []) ≤ 1)%nat) ∧
  (∃ x w',
     parseMultipartFormRequest upload_request
       (build_options unreachable []) (init_world empty_sink) = (inr x, w') ∧
     open_handles (trace w') [] = []).
Proof.
  split; [reflexivity|]. split.
  - destruct (parseMultipartFormRequest unreadable_upload_request
                (build_options unreachable []) (init_world empty_sink))
      as [r w'] eqn:Hrun.
    exists r, w'. split; [reflexivity|].
    exact (proj1 (parseMultipartFormRequest_handles unreadable_upload_request
                    (build_options unreachable []) (init_world empty_sink)
                    r w' eq_refl Hrun)).
  - assert (parseMultipartFormRequest upload_request (build_options unreachable [])
              (init_world empty_sink)
            = (inr (MultipartBuffer
                      {| mw_boundary := "b0undary";
                         mw_parts := [FilePart "file" "a.bin"
                                        (list_byte_of_string "hello")];
                         mw_closed := true |},
                    "multipart/form-data; boundary=b0undary"),
               {| sink_header := ∅;
                  trace := [EvFileOpen "file" "a.bin";
                            EvFileClose "file" "a.bin"] |}))
      as Hrun by reflexivity.
    eexists _, _. split; [exact Hrun|].
    exact (proj2 (parseMultipartFormRequest_handles upload_request
                    (build_options unreachable []) (init_world empty_sink)
                    _ _ eq_refl Hrun) _ eq_refl).
Defined.

Lemma parseMultipartFormRequest_fields_first_witness :
  (∃ r w',
     parseMultipartFormRequest upload_request (build_options unreachable [])
       (init_world empty_sink) = (r, w') ∧
     trace w' ≠ trace (init_world empty_sink)) ∧
  req_ParseMultipartForm upload_request
    (MaxUploadSize (build_options unreachable [])) = None ∧
  Forall (λ kvv, Forall (λ v, WriteField_err kvv.1 v = None) kvv.2)
         (range (Value (req_MultipartForm upload_request))).
Proof.
  assert (parseMultipartFormRequest upload_request (build_options unreachable [])
            (init_world empty_sink)
          = (inr (MultipartBuffer
                    {| mw_boundary := "b0undary";
                       mw_parts := [FilePart "file" "a.bin"
                                      (list_byte_of_string "hello")];
                       mw_closed := true |},
                  "multipart/form-data; boundary=b0undary"),
             {| sink_header := ∅;
                trace := [EvFileOpen "file" "a.bin"; EvFileClose "file" "a.bin"] |}))
    as Hrun by reflexivity.
  assert (trace {| sink_header := ∅;
                   trace := [EvFileOpen "file" "a.bin"; EvFileClose "file" "a.bin"] |}
          ≠ trace (init_world empty_sink)) as Hne by discriminate.
  split.
  - eexists _, _. split; [exact Hrun|exact Hne].
  - exact (parseMultipartFormRequest_fields_first upload_request
             (build_options unreachable []) (init_world empty_sink) _ _
             Hrun Hne).
Defined.

End MoreInstances.
